(** * Tekus provider/service frontend: a shallow embedding and its properties

    The development follows the TypeScript sources:
    - [lib/types.ts]: the entity records, and the summary dashboard
      ([SummaryPage]) that shares the file;
    - [lib/api.ts]: the shared axios client with its two interceptors and the
      [authService];
    - [app/providers/page.tsx]: the paginated provider list ([ProvidersPage]);
    - [app/providers/[id]/page.tsx]: the edit form ([EditProviderPage]) and
      the creation form ([NewProviderPage]).

    Pure helpers become Rocq functions.  Asynchronous functions become trees
    of effects ([Async]) that are run either to completion against a network
    oracle ([run]) or step by step on an event loop ([spawn], [deliver]). *)

From Stdlib Require Import ZArith QArith Ascii String List Permutation Sorted.
From stdpp Require Import base tactics option list strings gmap sorting.

Local Open Scope Z_scope.

(** ** JavaScript built-ins used by the pages

    Strings are sequences of 8-bit code units and the case conversions act on
    the ASCII letters, the range in which country codes and the literals of
    the sources live.  [trim] strips the ASCII white space and line
    terminators of ECMAScript ([TAB], [LF], [VT], [FF], [CR], [SP]). *)
Module JS.

Definition isLower (c : ascii) : bool :=
  let n := N_of_ascii c in ((97 <=? n) && (n <=? 122))%N.

Definition isUpper (c : ascii) : bool :=
  let n := N_of_ascii c in ((65 <=? n) && (n <=? 90))%N.

Definition upperChar (c : ascii) : ascii :=
  if isLower c then ascii_of_N (N_of_ascii c - 32) else c.

Definition lowerChar (c : ascii) : ascii :=
  if isUpper c then ascii_of_N (N_of_ascii c + 32) else c.

Definition isWhiteSpace (c : ascii) : bool :=
  let n := N_of_ascii c in (((9 <=? n) && (n <=? 13)) || (n =? 32))%N.

Fixpoint mapChars (f : ascii → ascii) (s : string) : string :=
  match s with
  | EmptyString => EmptyString
  | String c s' => String (f c) (mapChars f s')
  end.

(** [String.prototype.toUpperCase] and [toLowerCase]. *)
Definition toUpperCase (s : string) : string := mapChars upperChar s.
Definition toLowerCase (s : string) : string := mapChars lowerChar s.

Fixpoint trimStart (s : string) : string :=
  match s with
  | EmptyString => EmptyString
  | String c s' => if isWhiteSpace c then trimStart s' else s
  end.

Fixpoint trimEnd (s : string) : string :=
  match s with
  | EmptyString => EmptyString
  | String c s' =>
      match trimEnd s' with
      | EmptyString => if isWhiteSpace c then EmptyString else String c EmptyString
      | t => String c t
      end
  end.

(** [String.prototype.trim]. *)
Definition trim (s : string) : string := trimEnd (trimStart s).

Fixpoint startsWith (s p : string) : bool :=
  match p, s with
  | EmptyString, _ => true
  | String _ _, EmptyString => false
  | String b p', String a s' => if Ascii.eqb a b then startsWith s' p' else false
  end.

(** [String.prototype.includes]: [sub] occurs somewhere in [s]. *)
Fixpoint includes (s sub : string) : bool :=
  startsWith s sub ||
  match s with
  | EmptyString => false
  | String _ s' => includes s' sub
  end.

(** Truthiness of a string: every string but the empty one. *)
Definition truthy (s : string) : bool := negb (String.eqb s EmptyString).

(** Truthiness of a value that is a string, [null] or [undefined]. *)
Definition truthyOpt (v : option string) : bool :=
  match v with
  | Some s => truthy s
  | None => false
  end.

(** [a || b] on a possibly missing string [a] and a string [b]. *)
Definition orElse (a : option string) (b : string) : string :=
  match a with
  | Some s => if truthy s then s else b
  | None => b
  end.

(** [Array.prototype.includes] on an array of strings. *)
Definition arrayIncludes (l : list string) (x : string) : bool :=
  existsb (String.eqb x) l.

Section ArraySort.
Context {A : Type} (compareFn : A → A → Z).

(** [Array.prototype.sort(compareFn)].  ECMAScript asks for a stable sort: an
    element stays in front of the later elements that [compareFn] does not
    put strictly before it.  Insertion from the right end does exactly that. *)
Fixpoint sortInsert (x : A) (l : list A) : list A :=
  match l with
  | [] => [x]
  | y :: l' => if compareFn x y <=? 0 then x :: l else y :: sortInsert x l'
  end.

Definition sort (l : list A) : list A := foldr sortInsert [] l.

(** [compareFn] does not put [b] strictly before [a]. *)
Definition before (a b : A) : Prop := compareFn a b ≤ 0.

End ArraySort.

End JS.

(** ** Entities of [lib/types.ts] *)

Module ServiceCountry.
Record t := mk { id : string; serviceId : string; countryCode : string }.
End ServiceCountry.

Module Service.
Record t := mk {
  id : string;
  providerId : string;
  name : string;
  hourlyRate : Q;
  isDeleted : bool;
  deletedAt : option string;
  createdAt : string;
  countries : list ServiceCountry.t
}.
End Service.

Module CustomAttribute.
Record t := mk {
  id : string;
  providerId : string;
  key : string;
  value : string;
  isDeleted : bool;
  deletedAt : option string;
  createdAt : string
}.
End CustomAttribute.

Module Provider.
Record t := mk {
  id : string;
  nit : string;
  name : string;
  email : string;
  createdAt : string;
  isDeleted : bool;
  deletedAt : option string;
  services : list Service.t;
  customAttributes : list CustomAttribute.t
}.
End Provider.

Module PaginatedResponse.
Record t (T : Type) := mk {
  items : list T;
  pageNumber : Z;
  totalPages : Z;
  totalCount : Z;
  hasPreviousPage : bool;
  hasNextPage : bool
}.
Arguments mk {T}.
Arguments items {T}.
Arguments pageNumber {T}.
Arguments totalPages {T}.
Arguments totalCount {T}.
Arguments hasPreviousPage {T}.
Arguments hasNextPage {T}.
End PaginatedResponse.

Module Country.
Record t := mk { code : string; name : string; region : string }.
End Country.

(** A [Record<string, number>] received from the backend: its own properties
    in the order [Object.entries] lists them.  The counts are integers. *)
Definition CountRecord := list (string * Z).

Definition Object_entries (data : CountRecord) : list (string * Z) := data.
Definition Object_keys (data : CountRecord) : list string := map fst data.
Definition Object_values (data : CountRecord) : list Z := map snd data.

Module SummaryData.
Record t := mk {
  providersByCountry : option CountRecord;
  servicesByCountry : option CountRecord
}.
End SummaryData.

(** One bar of a chart, as built by [transformDataForChart]. *)
Module ChartEntry.
Record t := mk { country : string; code : string; count : Z }.
End ChartEntry.

(** ** The provider form values

    [ProviderFormData] of [app/providers/[id]/page.tsx].  The creation form's
    schema is the edit form's without the [id] fields; they are [None] there. *)

Module ServiceForm.
Record t := mk {
  name : string;
  hourlyRate : Q;
  countryCodes : list string;
  id : option string
}.
End ServiceForm.

Module AttributeForm.
Record t := mk { key : string; value : string; id : option string }.
End AttributeForm.

Module ProviderForm.
Record t := mk {
  id : option string;
  nit : string;
  name : string;
  email : string;
  services : list ServiceForm.t;
  attributes : list AttributeForm.t
}.
End ProviderForm.

(** ** Requests, responses and errors of the axios client *)

Inductive Method := GET | POST | PUT.

Inductive Body :=
| NoBody
| LoginBody (username password : string)
| CreateBody (data : ProviderForm.t)
| UpdateBody (id name email : string)
    (services : list ServiceForm.t) (attributes : list AttributeForm.t).

Module Request.
Record t := mk {
  method : Method;
  url : string;
  params : list (string * Z);
  headers : gmap string string;
  data : Body
}.
End Request.

(** [response.data] of a fulfilled request. *)
Inductive Payload :=
| LoginData (token : option string)
| ProviderPage (page : PaginatedResponse.t Provider.t)
| ProviderData (provider : Provider.t)
| CountryList (countries : list Country.t)
| Summary (summary : SummaryData.t)
| NoData.

(** [error.response] of a rejected request: the status, and
    [error.response.data?.message]. *)
Module ErrorResponse.
Record t := mk { status : Z; message : option string }.
End ErrorResponse.

(** What a [catch] clause can receive: an axios error, whose [response] is
    missing when the server was never reached, or a plain [Error]. *)
Inductive Error :=
| AxiosError (response : option ErrorResponse.t)
| PlainError (message : string).

Inductive Outcome :=
| Resolved (data : Payload)
| Rejected (error : Error).

(** The pages store [response.data] as it comes and TypeScript takes its shape
    on trust.  A payload of another shape than the endpoint's is read as the
    empty value of the expected shape. *)
Definition tokenOf (d : Payload) : option string :=
  match d with LoginData t => t | _ => None end.

Definition countriesOf (d : Payload) : list Country.t :=
  match d with CountryList l => l | _ => [] end.

Definition summaryOf (d : Payload) : option SummaryData.t :=
  match d with
  | Summary s => Some s
  | NoData => None
  | _ => Some (SummaryData.mk None None)
  end.

Definition emptyProvider : Provider.t :=
  Provider.mk "" "" "" "" "" false None [] [].

Definition providerOf (d : Payload) : Provider.t :=
  match d with ProviderData p => p | _ => emptyProvider end.

Definition emptyPage : PaginatedResponse.t Provider.t :=
  PaginatedResponse.mk [] 1 1 0 false false.

Definition providerPageOf (d : Payload) : PaginatedResponse.t Provider.t :=
  match d with ProviderPage p => p | _ => emptyPage end.

(** ** The browser and the effects of asynchronous code *)

Inductive StorageCall :=
| GetItemCall (key : string)
| SetItemCall (key value : string)
| RemoveItemCall (key : string).

Definition callKey (c : StorageCall) : string :=
  match c with
  | GetItemCall k | SetItemCall k _ | RemoveItemCall k => k
  end.

(** [localStorage] is the only durable state of the browser.  [storageCalls]
    records every call of the Storage API and [sent] every request handed to
    the network, oldest first. *)
Record Browser := mkBrowser {
  localStorage : gmap string string;
  storageCalls : list StorageCall;
  console : list (string * Error);
  href : option string;
  pushed : list string;
  sent : list Request.t
}.

Definition emptyBrowser : Browser := mkBrowser ∅ [] [] None [] [].

(** The browser together with the state of the component ([useState]). *)
Record World (S : Type) := mkWorld { browser : Browser; page : S }.
Arguments mkWorld {S}.
Arguments browser {S}.
Arguments page {S}.

(** Synchronous statements with an effect. *)
Inductive Effect (S : Type) :=
| SetItem (key value : string)
| RemoveItem (key : string)
| ConsoleError (label : string) (error : Error)
| SetHref (url : string)
| RouterPush (url : string)
| SetState (f : S → S).
Arguments SetItem {S}.
Arguments RemoveItem {S}.
Arguments ConsoleError {S}.
Arguments SetHref {S}.
Arguments RouterPush {S}.
Arguments SetState {S}.

Definition onBrowser {S} (f : Browser → Browser) (w : World S) : World S :=
  mkWorld (f (browser w)) (page w).

Definition perform {S} (e : Effect S) (w : World S) : World S :=
  match e with
  | SetItem k v =>
      onBrowser (λ b, mkBrowser (<[k := v]> (localStorage b))
                        (storageCalls b ++ [SetItemCall k v])
                        (console b) (href b) (pushed b) (sent b)) w
  | RemoveItem k =>
      onBrowser (λ b, mkBrowser (delete k (localStorage b))
                        (storageCalls b ++ [RemoveItemCall k])
                        (console b) (href b) (pushed b) (sent b)) w
  | ConsoleError label err =>
      onBrowser (λ b, mkBrowser (localStorage b) (storageCalls b)
                        (console b ++ [(label, err)]) (href b) (pushed b) (sent b)) w
  | SetHref u =>
      onBrowser (λ b, mkBrowser (localStorage b) (storageCalls b)
                        (console b) (Some u) (pushed b) (sent b)) w
  | RouterPush u =>
      onBrowser (λ b, mkBrowser (localStorage b) (storageCalls b)
                        (console b) (href b) (pushed b ++ [u]) (sent b)) w
  | SetState f => mkWorld (browser w) (f (page w))
  end.

Definition readItem {S} (k : string) (w : World S) : World S :=
  onBrowser (λ b, mkBrowser (localStorage b) (storageCalls b ++ [GetItemCall k])
                    (console b) (href b) (pushed b) (sent b)) w.

Definition recordSent {S} (r : Request.t) (w : World S) : World S :=
  onBrowser (λ b, mkBrowser (localStorage b) (storageCalls b)
                    (console b) (href b) (pushed b) (sent b ++ [r])) w.

(** An asynchronous function body: it returns, throws, reads the storage,
    performs an effect, or hands a request to the network and waits
    ([await]) for its outcome. *)
Inductive Async (S A : Type) : Type :=
| Return (a : A)
| Throw (e : Error)
| GetItem (key : string) (k : option string → Async S A)
| Do (e : Effect S) (k : Async S A)
| Send (r : Request.t) (k : Outcome → Async S A).
Arguments Return {S A}.
Arguments Throw {S A}.
Arguments GetItem {S A}.
Arguments Do {S A}.
Arguments Send {S A}.

Fixpoint bind {S A B} (m : Async S A) (f : A → Async S B) : Async S B :=
  match m with
  | Return a => f a
  | Throw e => Throw e
  | GetItem key k => GetItem key (λ v, bind (k v) f)
  | Do e k => Do e (bind k f)
  | Send r k => Send r (λ o, bind (k o) f)
  end.

#[export] Instance Async_ret {S} : MRet (Async S) := λ A a, Return a.
#[export] Instance Async_bind {S} : MBind (Async S) := λ A B f m, bind m f.

(** [try { body } catch (error) { handler error }]. *)
Fixpoint tryCatch {S A} (body : Async S A) (handler : Error → Async S A) : Async S A :=
  match body with
  | Return a => Return a
  | Throw e => handler e
  | GetItem key k => GetItem key (λ v, tryCatch (k v) handler)
  | Do e k => Do e (tryCatch k handler)
  | Send r k => Send r (λ o, tryCatch (k o) handler)
  end.

(** [try { body } finally { cleanup }]. *)
Fixpoint tryFinally {S A} (body : Async S A) (cleanup : Async S unit) : Async S A :=
  match body with
  | Return a => bind cleanup (λ _, Return a)
  | Throw e => bind cleanup (λ _, Throw e)
  | GetItem key k => GetItem key (λ v, tryFinally (k v) cleanup)
  | Do e k => Do e (tryFinally k cleanup)
  | Send r k => Send r (λ o, tryFinally (k o) cleanup)
  end.

Definition getItem {S} (key : string) : Async S (option string) :=
  GetItem key Return.
Definition effect {S} (e : Effect S) : Async S unit := Do e (Return ()).
Definition setState {S} (f : S → S) : Async S unit := effect (SetState f).
Definition send {S} (r : Request.t) : Async S Outcome := Send r Return.

(** How an asynchronous function ends. *)
Inductive Completion (A : Type) :=
| Normal (a : A)
| Abrupt (e : Error).
Arguments Normal {A}.
Arguments Abrupt {A}.

(** The function body that ends as [c] says. *)
Definition complete {S A} (c : Completion A) : Async S A :=
  match c with
  | Normal a => Return a
  | Abrupt e => Throw e
  end.

(** The backend: the outcome of a request, given the requests sent before. *)
Definition Network := list Request.t → Request.t → Outcome.

(** Running an asynchronous function alone, to completion. *)
Fixpoint run {S A} (net : Network) (m : Async S A) (w : World S)
    : World S * Completion A :=
  match m with
  | Return a => (w, Normal a)
  | Throw e => (w, Abrupt e)
  | GetItem key k => run net (k (localStorage (browser w) !! key)) (readItem key w)
  | Do e k => run net k (perform e w)
  | Send r k => run net (k (net (sent (browser w)) r)) (recordSent r w)
  end.

(** *** The event loop

    A call of an asynchronous function runs until its first [await]; the rest
    waits for the outcome of the request.  Any waiting task may be resumed
    next: the network gives no order. *)
Record Task (S A : Type) := mkTask {
  awaiting : Request.t;
  resume : Outcome → Async S A
}.
Arguments mkTask {S A}.
Arguments awaiting {S A}.
Arguments resume {S A}.

(** A call has completed, or it waits for a request. *)
Inductive Progress (S A : Type) :=
| Finished (c : Completion A)
| Waiting (t : Task S A).
Arguments Finished {S A}.
Arguments Waiting {S A}.

Record Loop (S : Type) := mkLoop { world : World S; pending : list (Task S unit) }.
Arguments mkLoop {S}.
Arguments world {S}.
Arguments pending {S}.

Fixpoint start {S A} (m : Async S A) (w : World S) : World S * Progress S A :=
  match m with
  | Return a => (w, Finished (Normal a))
  | Throw e => (w, Finished (Abrupt e))
  | GetItem key k => start (k (localStorage (browser w) !! key)) (readItem key w)
  | Do e k => start k (perform e w)
  | Send r k => (recordSent r w, Waiting (mkTask r k))
  end.

(** A call that nobody awaits: its result, or the error it throws, is lost. *)
Definition spawn {S} (m : Async S unit) (l : Loop S) : Loop S :=
  match start m (world l) with
  | (w, Waiting t) => mkLoop w (pending l ++ [t])
  | (w, Finished _) => mkLoop w (pending l)
  end.

(** The outcome [o] arrives for the [i]-th waiting task. *)
Definition deliver {S} (i : nat) (o : Outcome) (l : Loop S) : Loop S :=
  match pending l !! i with
  | Some t => spawn (resume t o) (mkLoop (world l) (delete i (pending l)))
  | None => l
  end.

(** The states an action can lead to: the calls it makes, then outcomes
    arriving in any order. *)
Inductive reaches {S} (l0 : Loop S) : Loop S → Prop :=
| reaches_here : reaches l0 l0
| reaches_deliver l i o :
    reaches l0 l → (i < length (pending l))%nat → reaches l0 (deliver i o l).

(** A component effect or handler calling asynchronous functions one after
    the other without awaiting them. *)
Definition spawnAll {S} (ms : list (Async S unit)) (l : Loop S) : Loop S :=
  foldl (λ l m, spawn m l) l ms.

Definition outstanding {S} (l : Loop S) : nat := length (pending l).

(** ** The shared axios client and the auth service ([lib/api.ts]) *)
Module Api.

Definition baseURL : string := "http://localhost:5248/api".

Definition defaultHeaders : gmap string string :=
  {[ "Content-Type" := "application/json" ]}.

Definition setAuthorization (v : string) (config : Request.t) : Request.t :=
  Request.mk (Request.method config) (Request.url config) (Request.params config)
    (<[ "Authorization" := v ]> (Request.headers config)) (Request.data config).

(** Lines 12-21: the request interceptor. *)
Definition requestInterceptor {S} (config : Request.t) : Async S Request.t :=
  token ← getItem "auth_token";
  match token with
  | Some t =>
      if JS.truthy t then mret (setAuthorization ("Bearer " +:+ t) config)
      else mret config
  | None => mret config
  end.

Definition isUnauthorized (error : Error) : bool :=
  match error with
  | AxiosError (Some r) => ErrorResponse.status r =? 401
  | _ => false
  end.

(** Lines 24-34: the rejection branch of the response interceptor. *)
Definition responseErrorInterceptor {S} (error : Error) : Async S Payload :=
  (if isUnauthorized error
   then effect (RemoveItem "auth_token");; effect (SetHref "/login")
   else mret ());;
  Throw error.

(** A request through the client: the request interceptor, the network, then
    the response interceptor (the identity on a fulfilled response).  Axios
    runs the request interceptor in a microtask that follows the calling
    code; no code of the pages writes the storage in between, so the
    interceptor reads the storage here, at the call. *)
Definition request {S} (config : Request.t) : Async S Payload :=
  config ← requestInterceptor config;
  outcome ← send config;
  match outcome with
  | Resolved d => mret d
  | Rejected error => responseErrorInterceptor error
  end.

Definition get {S} (url : string) (params : list (string * Z)) : Async S Payload :=
  request (Request.mk GET url params defaultHeaders NoBody).

Definition post {S} (url : string) (data : Body) : Async S Payload :=
  request (Request.mk POST url [] defaultHeaders data).

Definition put {S} (url : string) (data : Body) : Async S Payload :=
  request (Request.mk PUT url [] defaultHeaders data).

(** Lines 37-62: [authService]. *)
Definition login {S} (username password : string) : Async S Payload :=
  tryCatch
    (data ← post "/Auth/login" (LoginBody username password);
     match tokenOf data with
     | Some token =>
         if JS.truthy token
         then effect (SetItem "auth_token" token);; mret data
         else Throw (PlainError "Token not received from server")
     | None => Throw (PlainError "Token not received from server")
     end)
    (λ error, effect (ConsoleError "Login failed:" error);; Throw error).

Definition logout {S} : Async S unit :=
  effect (RemoveItem "auth_token");; effect (SetHref "/login").

Definition isAuthenticated {S} : Async S bool :=
  token ← getItem "auth_token"; mret (JS.truthyOpt token).

End Api.

(** ** [lib/AuthGuard.tsx] *)
Module AuthGuard.

Record State := mkState { isLoading : bool }.
Definition initialState : State := mkState true.
Definition setIsLoading (v : bool) (st : State) : State := mkState v.

Definition effect_ : Async State unit :=
  authenticated ← Api.isAuthenticated;
  if negb authenticated then effect (RouterPush "/login")
  else setState (setIsLoading false).

(** Lines 18-22: the message shown while [isLoading], the children after. *)
Inductive View := Checking | Children.

Definition render (st : State) : View :=
  if isLoading st then Checking else Children.

End AuthGuard.

(** ** The summary dashboard ([lib/types.ts], lines 54-335) *)
Module SummaryPage.

Record State := mkState {
  summaryData : option SummaryData.t;
  isLoading : bool;
  error : option string;
  countries : list Country.t
}.

Definition initialState : State := mkState None true None [].

Definition setSummaryData v st := mkState v (isLoading st) (error st) (countries st).
Definition setIsLoading v st := mkState (summaryData st) v (error st) (countries st).
Definition setError v st := mkState (summaryData st) (isLoading st) v (countries st).
Definition setCountries v st := mkState (summaryData st) (isLoading st) (error st) v.

Definition fetchData : Async State unit :=
  setState (setIsLoading true);;
  tryFinally
    (tryCatch
       (summaryResponse ← Api.get "/Summary" [];
        setState (setSummaryData (summaryOf summaryResponse));;
        countriesResponse ← Api.get "/Country" [];
        setState (setCountries (countriesOf countriesResponse)))
       (λ err,
          effect (ConsoleError "Error fetching data:" err);;
          setState (setError (Some "Failed to load summary data. Please try again later."))))
    (setState (setIsLoading false)).

(** The effect of the component: [useEffect(..., [])]. *)
Definition mount : list (Async State unit) := [fetchData].

Definition getCountryName (countries : list Country.t) (code : string) : string :=
  let normalizedCode := JS.toUpperCase (JS.trim code) in
  let country :=
    find (λ c, String.eqb (JS.toUpperCase (Country.code c)) normalizedCode) countries in
  match country with
  | Some c => Country.name c
  | None => code
  end.

Definition transformDataForChart (countries : list Country.t)
    (data : option CountRecord) : list ChartEntry.t :=
  match data with
  | None => []
  | Some data =>
      JS.sort (λ a b, ChartEntry.count b - ChartEntry.count a)
        (map (λ '(code, count),
                ChartEntry.mk (getCountryName countries code) code count)
             (Object_entries data))
  end.

Definition providersChartData (st : State) : list ChartEntry.t :=
  transformDataForChart (countries st)
    (summaryData st ≫= SummaryData.providersByCountry).

Definition servicesChartData (st : State) : list ChartEntry.t :=
  transformDataForChart (countries st)
    (summaryData st ≫= SummaryData.servicesByCountry).

(** Lines 144 and 150: [data ? Object.keys(data).length : 0]. *)
Definition countryCount (data : option CountRecord) : nat :=
  match data with
  | Some data => length (Object_keys data)
  | None => 0%nat
  end.

(** Lines 169-170 and 181-182:
    [data ? Object.values(data).reduce((a, b) => a + b, 0) : 0]. *)
Definition total (data : option CountRecord) : Z :=
  match data with
  | Some data => foldl (λ a b, a + b) 0 (Object_values data)
  | None => 0
  end.

(** What the dashboard shows: the four numbers of the cards, and the data of
    the two charts, which are also the rows of the two tables. *)
Record Dashboard := mkDashboard {
  providerCountries : nat;
  serviceCountries : nat;
  providersTotal : Z;
  servicesTotal : Z;
  providersChart : list ChartEntry.t;
  servicesChart : list ChartEntry.t
}.

Definition dashboard (st : State) : Dashboard :=
  mkDashboard
    (countryCount (summaryData st ≫= SummaryData.providersByCountry))
    (countryCount (summaryData st ≫= SummaryData.servicesByCountry))
    (total (summaryData st ≫= SummaryData.providersByCountry))
    (total (summaryData st ≫= SummaryData.servicesByCountry))
    (providersChartData st) (servicesChartData st).

(** Lines 113-130: the spinner, else the error, else the dashboard. *)
Inductive View :=
| Spinner
| ErrorAlert (message : string)
| Page (d : Dashboard).

Definition render (st : State) : View :=
  if isLoading st then Spinner
  else match error st with
       | Some message =>
           if JS.truthy message then ErrorAlert message else Page (dashboard st)
       | None => Page (dashboard st)
       end.

End SummaryPage.

(** ** The provider list ([app/providers/page.tsx]) *)
Module ProvidersPage.

Record State := mkState {
  providerData : PaginatedResponse.t Provider.t;
  isLoading : bool;
  currentPage : Z;
  isLoadingCountries : bool;
  countries : list Country.t
}.

Definition initialState : State :=
  mkState (PaginatedResponse.mk [] 1 1 0 false false) true 1 true [].

Definition setProviderData v st :=
  mkState v (isLoading st) (currentPage st) (isLoadingCountries st) (countries st).
Definition setIsLoading v st :=
  mkState (providerData st) v (currentPage st) (isLoadingCountries st) (countries st).
Definition setCurrentPage v st :=
  mkState (providerData st) (isLoading st) v (isLoadingCountries st) (countries st).
Definition setIsLoadingCountries v st :=
  mkState (providerData st) (isLoading st) (currentPage st) v (countries st).
Definition setCountries v st :=
  mkState (providerData st) (isLoading st) (currentPage st) (isLoadingCountries st) v.

Definition getCountryName (countries : list Country.t) (countryCode : string) : string :=
  let countryCode := JS.trim (JS.toUpperCase countryCode) in
  let country := find (λ c, String.eqb (Country.code c) countryCode) countries in
  match country with
  | Some c => Country.name c
  | None => countryCode
  end.

Definition fetchProviders (currentPage : Z) : Async State unit :=
  setState (setIsLoading true);;
  tryFinally
    (tryCatch
       (response ← Api.get "/Provider" [("pageNumber", currentPage); ("pageSize", 2)];
        setState (setProviderData (providerPageOf response)))
       (λ error, effect (ConsoleError "Error fetching providers:" error)))
    (setState (setIsLoading false)).

Definition fetchCountries : Async State unit :=
  setState (setIsLoadingCountries true);;
  tryFinally
    (tryCatch
       (response ← Api.get "/Country" [];
        setState (setCountries (countriesOf response)))
       (λ error, effect (ConsoleError "Error fetching countries:" error)))
    (setState (setIsLoadingCountries false)).

(** [useEffect(..., [currentPage])]: run after the first render and after
    every render in which [currentPage] changed.  Both functions are called
    without [await]. *)
Definition effect_ (st : State) : list (Async State unit) :=
  [fetchCountries; fetchProviders (currentPage st)].

Definition handlePageChange (newPage : Z) (st : State) : State :=
  setCurrentPage newPage st.

(** Lines 150-175: the two buttons, with their [disabled] attribute and the
    page their [onClick] passes to [handlePageChange]. *)
Record Pagination := mkPagination {
  previousDisabled : bool;
  previousPage : Z;
  nextDisabled : bool;
  nextPage : Z
}.

(** The spinner replaces the page while [isLoading]; the navigation is
    rendered when there is more than one page. *)
Definition pagination (st : State) : option Pagination :=
  if isLoading st then None
  else if 1 <? PaginatedResponse.totalPages (providerData st)
  then Some (mkPagination
               (negb (PaginatedResponse.hasPreviousPage (providerData st)))
               (currentPage st - 1)
               (negb (PaginatedResponse.hasNextPage (providerData st)))
               (currentPage st + 1))
  else None.

Inductive Button := Previous | Next.

(** A click on a rendered, enabled button. *)
Definition click (b : Button) (st : State) : option State :=
  nav ← pagination st;
  match b with
  | Previous =>
      if previousDisabled nav then None else Some (handlePageChange (previousPage nav) st)
  | Next =>
      if nextDisabled nav then None else Some (handlePageChange (nextPage nav) st)
  end.

End ProvidersPage.

(** ** The fields shared by the two provider forms

    The JSX of the services, the country picker and the custom attributes is
    the same in [EditProviderPage] (lines 241-490) and in [NewProviderPage]
    (lines 677-924). *)
Module ProviderFields.

Definition setServices v (form : ProviderForm.t) : ProviderForm.t :=
  ProviderForm.mk (ProviderForm.id form) (ProviderForm.nit form) (ProviderForm.name form)
    (ProviderForm.email form) v (ProviderForm.attributes form).

Definition setAttributes v (form : ProviderForm.t) : ProviderForm.t :=
  ProviderForm.mk (ProviderForm.id form) (ProviderForm.nit form) (ProviderForm.name form)
    (ProviderForm.email form) (ProviderForm.services form) v.

Definition setCountryCodes v (service : ServiceForm.t) : ServiceForm.t :=
  ServiceForm.mk (ServiceForm.name service) (ServiceForm.hourlyRate service) v
    (ServiceForm.id service).

(** The rows that [appendService] and [appendAttribute] receive. *)
Definition blankService : ServiceForm.t := ServiceForm.mk "" 0%Q [] None.
Definition blankAttribute : AttributeForm.t := AttributeForm.mk "" "" None.

(** [append] and [remove] of [useFieldArray]. *)
Definition append {A} (row : A) (fields : list A) : list A := fields ++ [row].
Definition remove {A} (index : nat) (fields : list A) : list A := delete index fields.

(** The [Remove] button of a row is rendered when [fields.length > 1]. *)
Definition removeRendered {A} (fields : list A) : bool := (1 <? length fields)%nat.

(** The countries listed under the search box. *)
Definition filteredCountries (countries : list Country.t) (searchTerm : string)
    : list Country.t :=
  if JS.truthy searchTerm
  then filter (λ country,
                 Is_true (JS.includes (JS.toLowerCase (Country.name country))
                            (JS.toLowerCase searchTerm)))
         countries
  else countries.

(** An entry of the dropdown: the country it shows and the value its
    [onClick] passes to [field.onChange]. *)
Record DropdownItem := mkDropdownItem {
  itemCountry : Country.t;
  itemOnClick : list string
}.

(** [filteredCountries.map(...)]: [None] is the [null] returned for a country
    whose code is already selected. *)
Definition dropdown (countries : list Country.t) (searchTerm : string)
    (value : list string) : list (option DropdownItem) :=
  map (λ country,
         if JS.arrayIncludes value (Country.code country) then None
         else Some (mkDropdownItem country (value ++ [Country.code country])))
      (filteredCountries countries searchTerm).

(** The [onClick] of the cross on the chip of [code]. *)
Definition chipOnClick (value : list string) (code : string) : list string :=
  filter (λ v, v ≠ code) value.

(** [field.onChange] of the picker of service [index]. *)
Definition onChange (index : nat) (v : list string) (form : ProviderForm.t)
    : ProviderForm.t :=
  setServices (alter (setCountryCodes v) index (ProviderForm.services form)) form.

(** What the user can do on the fields. *)
Inductive FormEvent :=
| ClickAddService
| ClickRemoveService (index : nat)
| ClickAddAttribute
| ClickRemoveAttribute (index : nat)
| ClickDropdownItem (index : nat) (searchTerm : string) (position : nat)
| ClickChip (index : nat) (code : string)
| TypeServiceName (index : nat) (text : string)
| TypeHourlyRate (index : nat) (rate : Q)
| TypeAttributeKey (index : nat) (text : string)
| TypeAttributeValue (index : nat) (text : string).

(** The form after an event, or [None] when the control is not on the page. *)
Definition handle (countries : list Country.t) (ev : FormEvent)
    (form : ProviderForm.t) : option ProviderForm.t :=
  let services := ProviderForm.services form in
  let attributes := ProviderForm.attributes form in
  match ev with
  | ClickAddService => Some (setServices (append blankService services) form)
  | ClickRemoveService index =>
      if removeRendered services && (index <? length services)%nat
      then Some (setServices (remove index services) form) else None
  | ClickAddAttribute => Some (setAttributes (append blankAttribute attributes) form)
  | ClickRemoveAttribute index =>
      if removeRendered attributes && (index <? length attributes)%nat
      then Some (setAttributes (remove index attributes) form) else None
  | ClickDropdownItem index searchTerm position =>
      service ← services !! index;
      entry ← dropdown countries searchTerm (ServiceForm.countryCodes service) !! position;
      item ← entry;
      Some (onChange index (itemOnClick item) form)
  | ClickChip index code =>
      service ← services !! index;
      if JS.arrayIncludes (ServiceForm.countryCodes service) code
      then Some (onChange index (chipOnClick (ServiceForm.countryCodes service) code) form)
      else None
  | TypeServiceName index text =>
      service ← services !! index;
      Some (setServices
              (<[index := ServiceForm.mk text (ServiceForm.hourlyRate service)
                            (ServiceForm.countryCodes service) (ServiceForm.id service)]>
                 services) form)
  | TypeHourlyRate index rate =>
      service ← services !! index;
      Some (setServices
              (<[index := ServiceForm.mk (ServiceForm.name service) rate
                            (ServiceForm.countryCodes service) (ServiceForm.id service)]>
                 services) form)
  | TypeAttributeKey index text =>
      attribute ← attributes !! index;
      Some (setAttributes
              (<[index := AttributeForm.mk text (AttributeForm.value attribute)
                            (AttributeForm.id attribute)]> attributes) form)
  | TypeAttributeValue index text =>
      attribute ← attributes !! index;
      Some (setAttributes
              (<[index := AttributeForm.mk (AttributeForm.key attribute) text
                            (AttributeForm.id attribute)]> attributes) form)
  end.

(** The forms that a sequence of events leads to, from [form0]; the list of
    fetched countries may change between two events. *)
Inductive edits (form0 : ProviderForm.t) : ProviderForm.t → Prop :=
| edits_start : edits form0 form0
| edits_event form countries ev form' :
    edits form0 form → handle countries ev form = Some form' → edits form0 form'.

End ProviderFields.

(** [error.response?.data?.message]. *)
Definition responseMessage (error : Error) : option string :=
  match error with
  | AxiosError (Some r) => ErrorResponse.message r
  | _ => None
  end.

(** ** The edit form ([app/providers/[id]/page.tsx], lines 1-504) *)
Module EditProviderPage.

Record State := mkState {
  isLoading : bool;
  isLoadingProvider : bool;
  error : string;
  countries : list Country.t;
  isLoadingCountries : bool;
  form : ProviderForm.t
}.

(** Lines 55-62. *)
Definition defaultValues : ProviderForm.t :=
  ProviderForm.mk (Some "") "" "" ""
    [ServiceForm.mk "" 0%Q [] None] [AttributeForm.mk "" "" None].

Definition initialState : State := mkState false true "" [] true defaultValues.

Definition setIsLoading v st :=
  mkState v (isLoadingProvider st) (error st) (countries st) (isLoadingCountries st) (form st).
Definition setIsLoadingProvider v st :=
  mkState (isLoading st) v (error st) (countries st) (isLoadingCountries st) (form st).
Definition setError v st :=
  mkState (isLoading st) (isLoadingProvider st) v (countries st) (isLoadingCountries st) (form st).
Definition setCountries v st :=
  mkState (isLoading st) (isLoadingProvider st) (error st) v (isLoadingCountries st) (form st).
Definition setIsLoadingCountries v st :=
  mkState (isLoading st) (isLoadingProvider st) (error st) (countries st) v (form st).
(** The values held by [useForm]. *)
Definition setForm v st :=
  mkState (isLoading st) (isLoadingProvider st) (error st) (countries st)
    (isLoadingCountries st) v.
(** [reset] of [useForm]: the given values replace those of the form. *)
Definition reset (values : ProviderForm.t) (st : State) : State := setForm values st.

(** Lines 86-102: from the API format to the form format. *)
Definition formData (provider : Provider.t) : ProviderForm.t :=
  ProviderForm.mk (Some (Provider.id provider)) (Provider.nit provider)
    (Provider.name provider) (Provider.email provider)
    (map (λ service,
            ServiceForm.mk (Service.name service) (Service.hourlyRate service)
              (map ServiceCountry.countryCode (Service.countries service))
              (Some (Service.id service)))
         (Provider.services provider))
    (map (λ attr,
            AttributeForm.mk (CustomAttribute.key attr) (CustomAttribute.value attr)
              (Some (CustomAttribute.id attr)))
         (Provider.customAttributes provider)).

Definition fetchProvider (providerId : string) : Async State unit :=
  setState (setIsLoadingProvider true);;
  tryFinally
    (tryCatch
       (response ← Api.get ("/Provider/" +:+ providerId) [];
        setState (reset (formData (providerOf response))))
       (λ error,
          effect (ConsoleError "Error fetching provider:" error);;
          setState (setError "Error loading provider data")))
    (setState (setIsLoadingProvider false)).

Definition fetchCountries : Async State unit :=
  setState (setIsLoadingCountries true);;
  tryFinally
    (tryCatch
       (response ← Api.get "/Country" [];
        setState (setCountries (countriesOf response)))
       (λ error, effect (ConsoleError "Error fetching countries:" error)))
    (setState (setIsLoadingCountries false)).

(** The two effects of the component, in the order of their declaration. *)
Definition mount (providerId : string) : list (Async State unit) :=
  [fetchProvider providerId; fetchCountries].

Definition onSubmit (providerId : string) (data : ProviderForm.t) : Async State unit :=
  setState (setIsLoading true);;
  setState (setError "");;
  tryFinally
    (tryCatch
       (Api.put ("/Provider/" +:+ providerId)
          (UpdateBody providerId (ProviderForm.name data) (ProviderForm.email data)
             (map (λ service,
                     ServiceForm.mk (ServiceForm.name service)
                       (ServiceForm.hourlyRate service)
                       (ServiceForm.countryCodes service) None)
                  (ProviderForm.services data))
             (map (λ attr,
                     AttributeForm.mk (AttributeForm.key attr) (AttributeForm.value attr) None)
                  (ProviderForm.attributes data)));;
        effect (RouterPush "/providers"))
       (λ error,
          effect (ConsoleError "Failed to update provider:" error);;
          setState (setError (JS.orElse (responseMessage error) "Failed to update provider"))))
    (setState (setIsLoading false)).

(** An event on the fields of the form. *)
Definition handle (ev : ProviderFields.FormEvent) (st : State) : State :=
  setForm (default (form st) (ProviderFields.handle (countries st) ev (form st))) st.

(** The label of the chip of a selected code (lines 345-353):
    [country?.name || code]. *)
Definition chipLabel (countries : list Country.t) (code : string) : string :=
  let country :=
    find (λ c, String.eqb (JS.trim (Country.code c)) (JS.trim code)) countries in
  JS.orElse (Country.name <$> country) code.

(** The submit button carries [disabled={isLoading}] (line 495). *)
Definition submitDisabled (st : State) : bool := isLoading st.

(** Lines 12-32: the schemas.  [z.string().email()] is the pattern of the zod
    library; it is a parameter here. *)
Section Schema.
Variable isEmail : string → bool.

Definition ServiceSchema (service : ServiceForm.t) : bool :=
  JS.truthy (ServiceForm.name service) &&
  negb (Qle_bool (ServiceForm.hourlyRate service) 0) &&
  (1 <=? length (ServiceForm.countryCodes service))%nat.

Definition AttributeSchema (attr : AttributeForm.t) : bool :=
  JS.truthy (AttributeForm.key attr) && JS.truthy (AttributeForm.value attr).

Definition ProviderSchema (data : ProviderForm.t) : bool :=
  bool_decide (is_Some (ProviderForm.id data)) &&
  JS.truthy (ProviderForm.name data) &&
  isEmail (ProviderForm.email data) &&
  forallb ServiceSchema (ProviderForm.services data) &&
  forallb AttributeSchema (ProviderForm.attributes data).

(** [handleSubmit(onSubmit)] with the zod resolver: [onSubmit] is called
    with the values when they pass the schema, and not at all otherwise. *)
Definition handleSubmit (providerId : string) (data : ProviderForm.t)
    : option (Async State unit) :=
  if ProviderSchema data then Some (onSubmit providerId data) else None.

End Schema.

End EditProviderPage.

(** ** The creation form ([app/providers/[id]/page.tsx], lines 505-937) *)
Module NewProviderPage.

Record State := mkState {
  isLoading : bool;
  error : string;
  countries : list Country.t;
  isLoadingCountries : bool
}.

Definition initialState : State := mkState false "" [] true.

Definition setIsLoading v st := mkState v (error st) (countries st) (isLoadingCountries st).
Definition setError v st := mkState (isLoading st) v (countries st) (isLoadingCountries st).
Definition setCountries v st := mkState (isLoading st) (error st) v (isLoadingCountries st).
Definition setIsLoadingCountries v st := mkState (isLoading st) (error st) (countries st) v.

(** Lines 567-573.  The form lives in [useForm]; no asynchronous function of
    this page writes to it. *)
Definition defaultValues : ProviderForm.t :=
  ProviderForm.mk None "" "" ""
    [ServiceForm.mk "" 0%Q [] None] [AttributeForm.mk "" "" None].

Definition fetchCountries : Async State unit :=
  setState (setIsLoadingCountries true);;
  tryFinally
    (tryCatch
       (response ← Api.get "/Country" [];
        setState (setCountries (countriesOf response)))
       (λ error,
          effect (ConsoleError "Error fetching countries:" error);;
          setState (setError "Failed to load countries. Please try again.")))
    (setState (setIsLoadingCountries false)).

Definition mount : list (Async State unit) := [fetchCountries].

Definition onSubmit (data : ProviderForm.t) : Async State unit :=
  setState (setIsLoading true);;
  setState (setError "");;
  tryFinally
    (tryCatch
       (Api.post "/Provider/with-details" (CreateBody data);;
        effect (RouterPush "/providers"))
       (λ error,
          effect (ConsoleError "Failed to create provider:" error);;
          setState (setError (JS.orElse (responseMessage error) "Failed to create provider"))))
    (setState (setIsLoading false)).

(** The label of the chip of a selected code (lines 781-789):
    [country?.name || code]. *)
Definition chipLabel (countries : list Country.t) (code : string) : string :=
  let country := find (λ c, String.eqb (Country.code c) code) countries in
  JS.orElse (Country.name <$> country) code.

(** The submit button carries [disabled={isLoading}] (line 929). *)
Definition submitDisabled (st : State) : bool := isLoading st.

(** Lines 515-532: the schemas.  [z.string().email()] is the pattern of the
    zod library; it is a parameter here. *)
Section Schema.
Variable isEmail : string → bool.

Definition ServiceSchema (service : ServiceForm.t) : bool :=
  JS.truthy (ServiceForm.name service) &&
  negb (Qle_bool (ServiceForm.hourlyRate service) 0) &&
  (1 <=? length (ServiceForm.countryCodes service))%nat.

Definition AttributeSchema (attr : AttributeForm.t) : bool :=
  JS.truthy (AttributeForm.key attr) && JS.truthy (AttributeForm.value attr).

Definition ProviderSchema (data : ProviderForm.t) : bool :=
  JS.truthy (ProviderForm.nit data) &&
  JS.truthy (ProviderForm.name data) &&
  isEmail (ProviderForm.email data) &&
  forallb ServiceSchema (ProviderForm.services data) &&
  forallb AttributeSchema (ProviderForm.attributes data).

(** [handleSubmit(onSubmit)] with the zod resolver. *)
Definition handleSubmit (data : ProviderForm.t) : option (Async State unit) :=
  if ProviderSchema data then Some (onSubmit data) else None.

End Schema.

End NewProviderPage.

(** ** The operations of the frontend *)

Inductive Operation :=
| AuthLogin (username password : string)
| AuthLogout
| AuthIsAuthenticated
| AuthGuardEffect
| SummaryFetchData
| ProvidersFetchProviders (currentPage : Z)
| ProvidersFetchCountries
| EditFetchProvider (providerId : string)
| EditFetchCountries
| EditOnSubmit (providerId : string) (data : ProviderForm.t)
| NewFetchCountries
| NewOnSubmit (data : ProviderForm.t).

(** An asynchronous function with the types of its component state and of
    its result. *)
Record Program := mkProgram {
  stateOf : Type;
  resultOf : Type;
  code : Async stateOf resultOf
}.

Definition program (op : Operation) : Program :=
  match op with
  | AuthLogin username password => mkProgram unit Payload (Api.login username password)
  | AuthLogout => mkProgram unit unit Api.logout
  | AuthIsAuthenticated => mkProgram unit bool Api.isAuthenticated
  | AuthGuardEffect => mkProgram AuthGuard.State unit AuthGuard.effect_
  | SummaryFetchData => mkProgram SummaryPage.State unit SummaryPage.fetchData
  | ProvidersFetchProviders currentPage =>
      mkProgram ProvidersPage.State unit (ProvidersPage.fetchProviders currentPage)
  | ProvidersFetchCountries =>
      mkProgram ProvidersPage.State unit ProvidersPage.fetchCountries
  | EditFetchProvider providerId =>
      mkProgram EditProviderPage.State unit (EditProviderPage.fetchProvider providerId)
  | EditFetchCountries =>
      mkProgram EditProviderPage.State unit EditProviderPage.fetchCountries
  | EditOnSubmit providerId data =>
      mkProgram EditProviderPage.State unit (EditProviderPage.onSubmit providerId data)
  | NewFetchCountries =>
      mkProgram NewProviderPage.State unit NewProviderPage.fetchCountries
  | NewOnSubmit data =>
      mkProgram NewProviderPage.State unit (NewProviderPage.onSubmit data)
  end.

(** ** Vocabulary of the statements *)

(** The code of [c] matches the record key [key] case-insensitively, once
    [key] is trimmed. *)
Definition matchesKey (key : string) (c : Country.t) : Prop :=
  JS.toUpperCase (Country.code c) = JS.toUpperCase (JS.trim key).

(** [x] is the first element of [l] that satisfies [P]. *)
Definition firstWith {A} (P : A → Prop) (l : list A) (x : A) : Prop :=
  ∃ pre post, l = (pre ++ x :: post)%list ∧ P x ∧ Forall (λ y, ¬ P y) pre.

(** [shown] is the display name of the country that matches [key], or [key]
    itself when no fetched country matches. *)
Definition displayNameOf (countries : list Country.t) (key shown : string) : Prop :=
  (∃ c, firstWith (matchesKey key) countries c ∧ shown = Country.name c) ∨
  (Forall (λ c, ¬ matchesKey key c) countries ∧ shown = key).

Definition entryPair (e : ChartEntry.t) : string * Z :=
  (ChartEntry.code e, ChartEntry.count e).

(** Every country code of the list is written in upper case. *)
Definition upperCodes (countries : list Country.t) : Prop :=
  Forall (λ c, JS.toUpperCase (Country.code c) = Country.code c) countries.

(** The form has at least one service row and one attribute row. *)
Definition nonEmptyRows (form : ProviderForm.t) : Prop :=
  (1 ≤ length (ProviderForm.services form))%nat ∧
  (1 ≤ length (ProviderForm.attributes form))%nat.

(** No service of the form lists a country code twice. *)
Definition noDuplicateCodes (form : ProviderForm.t) : Prop :=
  Forall (λ service, NoDup (ServiceForm.countryCodes service))
    (ProviderForm.services form).

(** The request that leaves the client for [config]: what the request
    interceptor makes of it in the world [w]. *)
Definition authorize {S} (w : World S) (config : Request.t) : Request.t :=
  match localStorage (browser w) !! "auth_token" with
  | Some t => if JS.truthy t then Api.setAuthorization ("Bearer " +:+ t) config else config
  | None => config
  end.

(** The world after the rejection branch of the response interceptor. *)
Definition afterRejection {S} (error : Error) (w : World S) : World S :=
  if Api.isUnauthorized error
  then perform (SetHref "/login") (perform (RemoveItem "auth_token") w)
  else w.

(** Every storage read, effect and request that occurs in an asynchronous
    function, whatever the storage holds and the backend answers. *)
Section Nodes.
Context {S : Type}.
Context (okKey : string → Prop) (okEffect : Effect S → Prop)
  (okRequest : Request.t → Prop).

Inductive nodes {A : Type} : Async S A → Prop :=
| nodes_Return a : nodes (Return a)
| nodes_Throw e : nodes (Throw e)
| nodes_GetItem key k : okKey key → (∀ v, nodes (k v)) → nodes (GetItem key k)
| nodes_Do e k : okEffect e → nodes k → nodes (Do e k)
| nodes_Send r k : okRequest r → (∀ o, nodes (k o)) → nodes (Send r k).

End Nodes.

(** The world [w'] comes after [w]: the logs of [w] are prefixes of the logs
    of [w'], and the entries added satisfy the given predicates. *)
Definition extends {S} (okCall : StorageCall → Prop) (okRequest : Request.t → Prop)
    (w w' : World S) : Prop :=
  (∃ calls, storageCalls (browser w') = storageCalls (browser w) ++ calls ∧
            Forall okCall calls) ∧
  (∃ rs, sent (browser w') = sent (browser w) ++ rs ∧ Forall okRequest rs) ∧
  (∀ k, (∀ c, okCall c → callKey c ≠ k) →
        localStorage (browser w') !! k = localStorage (browser w) !! k).

(** The storage call that an effect makes, if any. *)
Definition callOf {S} (e : Effect S) : option StorageCall :=
  match e with
  | SetItem k v => Some (SetItemCall k v)
  | RemoveItem k => Some (RemoveItemCall k)
  | _ => None
  end.

(** Every waiting task of the loop continues with reads, effects and
    requests that the predicates allow. *)
Definition tasksOk {S} (okCall : StorageCall → Prop) (okRequest : Request.t → Prop)
    (l : Loop S) : Prop :=
  Forall (λ t, ∀ o,
            nodes (λ key, okCall (GetItemCall key))
                  (λ e : Effect S, ∀ c, callOf e = Some c → okCall c)
                  okRequest (resume t o))
    (pending l).

(** The method and path of a request. *)
Definition endpoint (r : Request.t) : Method * string :=
  (Request.method r, Request.url r).

(** The endpoints of each operation. *)
Definition endpointsOf (op : Operation) : list (Method * string) :=
  match op with
  | AuthLogin _ _ => [(POST, "/Auth/login")]
  | AuthLogout | AuthIsAuthenticated | AuthGuardEffect => []
  | SummaryFetchData => [(GET, "/Summary"); (GET, "/Country")]
  | ProvidersFetchProviders _ => [(GET, "/Provider")]
  | ProvidersFetchCountries | EditFetchCountries | NewFetchCountries => [(GET, "/Country")]
  | EditFetchProvider providerId => [(GET, "/Provider/" +:+ providerId)]
  | EditOnSubmit providerId _ => [(PUT, "/Provider/" +:+ providerId)]
  | NewOnSubmit _ => [(POST, "/Provider/with-details")]
  end.

(** [op] can send [r]: some backend and some initial world make it do so. *)
Definition requests (op : Operation) (r : Request.t) : Prop :=
  ∃ net (w : World (stateOf (program op))),
    sent (browser w) = [] ∧ r ∈ sent (browser (run net (code (program op)) w).1).

(** The state of its component when an operation first runs, in a fresh
    browser, and a backend that fulfils every request with no data. *)
Definition initialStateOf (op : Operation) : stateOf (program op) :=
  match op return stateOf (program op) with
  | AuthLogin _ _ | AuthLogout | AuthIsAuthenticated => ()
  | AuthGuardEffect => AuthGuard.initialState
  | SummaryFetchData => SummaryPage.initialState
  | ProvidersFetchProviders _ | ProvidersFetchCountries => ProvidersPage.initialState
  | EditFetchProvider _ | EditFetchCountries | EditOnSubmit _ _ =>
      EditProviderPage.initialState
  | NewFetchCountries | NewOnSubmit _ => NewProviderPage.initialState
  end.

Definition initialWorld (op : Operation) : World (stateOf (program op)) :=
  mkWorld emptyBrowser (initialStateOf op).

Definition fulfilling : Network := λ _ _, Resolved NoData.

(** A read or a removal of the token. *)
Definition tokenAccess (c : StorageCall) : Prop :=
  match c with
  | GetItemCall k | RemoveItemCall k => k = "auth_token"
  | SetItemCall _ _ => False
  end.

(** The label under which an operation logs a failed request. *)
Definition logLabel (op : Operation) : string :=
  match op with
  | AuthLogin _ _ => "Login failed:"
  | SummaryFetchData => "Error fetching data:"
  | ProvidersFetchProviders _ => "Error fetching providers:"
  | ProvidersFetchCountries | EditFetchCountries | NewFetchCountries =>
      "Error fetching countries:"
  | EditFetchProvider _ => "Error fetching provider:"
  | EditOnSubmit _ _ => "Failed to update provider:"
  | NewOnSubmit _ => "Failed to create provider:"
  | AuthLogout | AuthIsAuthenticated | AuthGuardEffect => ""
  end.

(** The message that an operation puts on the page when a request fails with
    [e]; [None] when it puts none. *)
Definition surfaced (op : Operation) (e : Error) : option string :=
  match op with
  | SummaryFetchData => Some "Failed to load summary data. Please try again later."
  | EditFetchProvider _ => Some "Error loading provider data"
  | NewFetchCountries => Some "Failed to load countries. Please try again."
  | EditOnSubmit _ _ => Some (JS.orElse (responseMessage e) "Failed to update provider")
  | NewOnSubmit _ => Some (JS.orElse (responseMessage e) "Failed to create provider")
  | _ => None
  end.

(** The [error] state of the component of an operation, when it has one. *)
Definition errorState (op : Operation) : stateOf (program op) → option string :=
  match op return stateOf (program op) → option string with
  | SummaryFetchData => SummaryPage.error
  | EditFetchProvider _ | EditFetchCountries | EditOnSubmit _ _ =>
      λ st, Some (EditProviderPage.error st)
  | NewFetchCountries | NewOnSubmit _ => λ st, Some (NewProviderPage.error st)
  | _ => λ _, None
  end.

(** The REST paths of the backend. *)
Definition backendPath (u : string) : Prop :=
  u = "/Auth/login" ∨ u = "/Provider" ∨ (∃ id, u = "/Provider/" +:+ id) ∨
  u = "/Provider/with-details" ∨ u = "/Country" ∨ u = "/Summary".

(** The storage calls that an operation is seen to make: reads and removals
    of the token, and, in [login] only, the writing of the token. *)
Definition tokenCall (op : Operation) (c : StorageCall) : Prop :=
  match c with
  | GetItemCall k | RemoveItemCall k => k = "auth_token"
  | SetItemCall k _ =>
      k = "auth_token" ∧ match op with AuthLogin _ _ => True | _ => False end
  end.


(** The request that [login] configures. *)
Definition loginRequest (username password : string) : Request.t :=
  Request.mk POST "/Auth/login" [] Api.defaultHeaders (LoginBody username password).

(** The error that [login] throws when the response carries no token. *)
Definition tokenNotReceived : Error := PlainError "Token not received from server".


(** The loading flag that an operation raises while it runs, when it has one. *)
Definition loadingFlag (op : Operation) : stateOf (program op) → option bool :=
  match op return stateOf (program op) → option bool with
  | SummaryFetchData => λ st, Some (SummaryPage.isLoading st)
  | ProvidersFetchProviders _ => λ st, Some (ProvidersPage.isLoading st)
  | ProvidersFetchCountries => λ st, Some (ProvidersPage.isLoadingCountries st)
  | EditFetchProvider _ => λ st, Some (EditProviderPage.isLoadingProvider st)
  | EditFetchCountries => λ st, Some (EditProviderPage.isLoadingCountries st)
  | EditOnSubmit _ _ => λ st, Some (EditProviderPage.isLoading st)
  | NewFetchCountries => λ st, Some (NewProviderPage.isLoadingCountries st)
  | NewOnSubmit _ => λ st, Some (NewProviderPage.isLoading st)
  | _ => λ _, None
  end.




(** The message of the summary page for a failed load. *)
Definition summaryFailure : string :=
  "Failed to load summary data. Please try again later.".

(** The body that the edit form sends for [provider] when nothing was edited. *)
Definition unchangedBody (providerId : string) (provider : Provider.t) : Body :=
  UpdateBody providerId (Provider.name provider) (Provider.email provider)
    (map (λ service,
            ServiceForm.mk (Service.name service) (Service.hourlyRate service)
              (map ServiceCountry.countryCode (Service.countries service)) None)
         (Provider.services provider))
    (map (λ attr,
            AttributeForm.mk (CustomAttribute.key attr) (CustomAttribute.value attr) None)
         (Provider.customAttributes provider)).

(** * Properties *)

(** ** Strings *)

Lemma eqb_string_true (a b : string) : String.eqb a b = true ↔ a = b.
Proof. apply String.eqb_eq. Qed.

Lemma isWhiteSpace_upperChar c : JS.isWhiteSpace (JS.upperChar c) = JS.isWhiteSpace c.
Proof. destruct c as [[] [] [] [] [] [] [] []]; reflexivity. Qed.

Lemma mapChars_empty f s : JS.mapChars f s = EmptyString → s = EmptyString.
Proof. destruct s; [done | discriminate]. Qed.

Lemma toUpperCase_trimStart s :
  JS.toUpperCase (JS.trimStart s) = JS.trimStart (JS.toUpperCase s).
Proof.
  induction s as [| c s IH]; [done |].
  cbn. rewrite isWhiteSpace_upperChar.
  destruct (JS.isWhiteSpace c); [exact IH | done].
Qed.

Lemma toUpperCase_trimEnd s :
  JS.toUpperCase (JS.trimEnd s) = JS.trimEnd (JS.toUpperCase s).
Proof.
  induction s as [| c s IH]; [done |].
  cbn. fold (JS.toUpperCase s). rewrite <- IH, isWhiteSpace_upperChar.
  destruct (JS.trimEnd s) as [| d t]; cbn.
  - destruct (JS.isWhiteSpace c); done.
  - done.
Qed.

Lemma toUpperCase_trim s : JS.toUpperCase (JS.trim s) = JS.trim (JS.toUpperCase s).
Proof. unfold JS.trim. by rewrite toUpperCase_trimEnd, toUpperCase_trimStart. Qed.

(** ** [Array.prototype.sort] *)
Section SortFacts.
Context {A : Type} (compareFn : A → A → Z).

Local Abbreviation before := (JS.before compareFn).

Lemma sortInsert_perm x l : JS.sortInsert compareFn x l ≡ₚ x :: l.
Proof.
  induction l as [| y l IH]; [done |].
  cbn. destruct (compareFn x y <=? 0); [done |].
  rewrite IH. apply Permutation_swap.
Qed.

Lemma sort_perm l : JS.sort compareFn l ≡ₚ l.
Proof.
  induction l as [| x l IH]; [done |].
  cbn. fold (JS.sort compareFn l). by rewrite sortInsert_perm, IH.
Qed.

Hypothesis compare_total : ∀ a b, 0 < compareFn a b → compareFn b a ≤ 0.

Lemma sortInsert_hd x y l :
  before y x → HdRel before y l → HdRel before y (JS.sortInsert compareFn x l).
Proof.
  intros Hyx Hhd. destruct l as [| z l]; cbn.
  - by constructor.
  - destruct (compareFn x z <=? 0); constructor; [done |].
    by inversion Hhd.
Qed.

Lemma sortInsert_sorted x l :
  Sorted before l → Sorted before (JS.sortInsert compareFn x l).
Proof.
  induction 1 as [| y l Hs IH Hhd]; cbn.
  - repeat constructor.
  - destruct (compareFn x y <=? 0) eqn:Hc.
    + constructor; [by constructor |]. constructor. unfold JS.before. lia.
    + constructor; [exact IH |].
      apply sortInsert_hd; [| done]. apply compare_total. lia.
Qed.

Lemma sort_sorted l : Sorted before (JS.sort compareFn l).
Proof.
  induction l as [| x l IH]; cbn; [constructor |].
  by apply sortInsert_sorted.
Qed.

End SortFacts.

(** ** The summary dashboard *)

Lemma find_firstWith {A} (f : A → bool) (l : list A) x :
  find f l = Some x → firstWith (λ y, f y = true) l x.
Proof.
  induction l as [| y l IH]; [done |].
  cbn. destruct (f y) eqn:Hy.
  - intros [= ->]. exists [], l. by repeat split.
  - intros Hx. destruct (IH Hx) as (pre & post & -> & Hfx & Hpre).
    exists (y :: pre), post. repeat split; [done |].
    constructor; [congruence | done].
Qed.

Lemma find_none {A} (f : A → bool) (l : list A) :
  find f l = None → Forall (λ y, f y ≠ true) l.
Proof.
  induction l as [| y l IH]; [constructor |].
  cbn. destruct (f y) eqn:Hy; [done |].
  intros Hn. constructor; [congruence | auto].
Qed.

Lemma firstWith_iff {A} (P Q : A → Prop) l x :
  (∀ y, P y ↔ Q y) → firstWith P l x → firstWith Q l x.
Proof.
  intros HPQ (pre & post & -> & Hx & Hpre).
  exists pre, post. repeat split; [by apply HPQ |].
  eapply Forall_impl; [exact Hpre |]. intros y Hy HQ. by apply Hy, HPQ.
Qed.

Lemma getCountryName_displayName countries key :
  displayNameOf countries key (SummaryPage.getCountryName countries key).
Proof.
  unfold SummaryPage.getCountryName, displayNameOf.
  destruct (find _ countries) as [c |] eqn:Hfind.
  - left. exists c. split; [| done].
    apply find_firstWith in Hfind.
    eapply firstWith_iff; [| exact Hfind].
    intros y. unfold matchesKey. apply eqb_string_true.
  - right. split; [| done].
    apply find_none in Hfind.
    eapply Forall_impl; [exact Hfind |].
    intros y Hy Hm. apply Hy. by apply eqb_string_true.
Qed.

Lemma chart_entries_country countries (data : CountRecord) :
  Forall (λ e, ChartEntry.country e =
               SummaryPage.getCountryName countries (ChartEntry.code e))
    (map (λ '(code, count),
            ChartEntry.mk (SummaryPage.getCountryName countries code) code count)
         data).
Proof. induction data as [| [code count] data IH]; constructor; done. Qed.

Lemma chart_entries_pairs countries (data : CountRecord) :
  map entryPair
    (map (λ '(code, count),
            ChartEntry.mk (SummaryPage.getCountryName countries code) code count)
         data) = data.
Proof.
  induction data as [| [code count] data IH]; [done |].
  cbn. by rewrite IH.
Qed.

(** C1.  For a summary record, [transformDataForChart] returns one entry per
    key of the record (the entries, read as key and count, are the entries of
    the record up to order); the [country] field of each entry is the display
    name of the first fetched country whose code equals the trimmed key up to
    letter case, or the key itself when there is none; the counts never
    increase along the result.  For an undefined record the result is the
    empty list. *)
Theorem transformDataForChart_spec (countries : list Country.t) (data : CountRecord) :
  let result := SummaryPage.transformDataForChart countries (Some data) in
  map entryPair result ≡ₚ Object_entries data ∧
  map ChartEntry.code result ≡ₚ Object_keys data ∧
  length result = length (Object_keys data) ∧
  Forall (λ e, displayNameOf countries (ChartEntry.code e) (ChartEntry.country e)) result ∧
  StronglySorted (λ a b, ChartEntry.count b ≤ ChartEntry.count a) result ∧
  SummaryPage.transformDataForChart countries None = [].
Proof.
  cbn zeta. unfold SummaryPage.transformDataForChart, Object_entries, Object_keys.
  set (entries := map _ data).
  set (cmp := λ a b : ChartEntry.t, ChartEntry.count b - ChartEntry.count a).
  assert (Hperm : JS.sort cmp entries ≡ₚ entries) by apply sort_perm.
  assert (Hpairs : map entryPair (JS.sort cmp entries) ≡ₚ data).
  { rewrite Hperm. unfold entries. by rewrite chart_entries_pairs. }
  split; [exact Hpairs |].
  split.
  { rewrite <- Hpairs, map_map. done. }
  split.
  { rewrite length_map, <- (length_map entryPair). by rewrite Hpairs. }
  split.
  { rewrite Hperm. unfold entries.
    eapply Forall_impl; [apply chart_entries_country |].
    intros e ->. apply getCountryName_displayName. }
  split; [| done].
  apply Sorted_StronglySorted.
  - intros a b c. lia.
  - eapply Sorted_ind with (P := Sorted _); [constructor | |
      apply (sort_sorted cmp); unfold cmp; intros; lia].
    intros a l _ IH Hhd. constructor; [exact IH |].
    destruct Hhd; constructor. unfold JS.before, cmp in *. lia.
Qed.

(** ** The two country-name lookups *)

Lemma find_upperCodes countries key :
  upperCodes countries →
  find (λ c, String.eqb (JS.toUpperCase (Country.code c)) key) countries =
  find (λ c, String.eqb (Country.code c) key) countries.
Proof.
  induction 1 as [| c countries Hc _ IH]; [done |].
  cbn. rewrite Hc. by destruct (String.eqb (Country.code c) key).
Qed.

(** C8, as stated, fails: with a country whose code is stored in lower case
    the dashboard finds it and the list page does not; and when nothing
    matches, the dashboard answers the code as given, the list page answers
    it trimmed and upper-cased. *)
Lemma getCountryName_differ :
  SummaryPage.getCountryName [Country.mk "co" "Colombia" "Americas"] "co" = "Colombia" ∧
  ProvidersPage.getCountryName [Country.mk "co" "Colombia" "Americas"] "co" = "CO" ∧
  SummaryPage.getCountryName [] " us" = " us" ∧
  ProvidersPage.getCountryName [] " us" = "US" ∧
  ¬ (∀ countries code,
       ProvidersPage.getCountryName countries code =
       SummaryPage.getCountryName countries code).
Proof.
  repeat split; try reflexivity.
  intros H. specialize (H [] " us"). vm_compute in H. discriminate.
Qed.

(** C8, amended.  When the codes of the country list are in upper case, both
    lookups search the first country whose code is the trimmed, upper-cased
    input and both return its display name; when there is none, the dashboard
    returns the input as given and the list page returns it trimmed and
    upper-cased.  They agree whenever a country matches or the input is
    already trimmed and in upper case. *)
Theorem getCountryName_agree (countries : list Country.t) (code : string) :
  upperCodes countries →
  let key := JS.toUpperCase (JS.trim code) in
  match find (λ c, String.eqb (Country.code c) key) countries with
  | Some c =>
      SummaryPage.getCountryName countries code = Country.name c ∧
      ProvidersPage.getCountryName countries code = Country.name c
  | None =>
      SummaryPage.getCountryName countries code = code ∧
      ProvidersPage.getCountryName countries code = key ∧
      (key = code →
       ProvidersPage.getCountryName countries code =
       SummaryPage.getCountryName countries code)
  end.
Proof.
  intros Hup key.
  unfold SummaryPage.getCountryName, ProvidersPage.getCountryName.
  rewrite find_upperCodes by done.
  rewrite <- toUpperCase_trim. fold key.
  destruct (find _ countries); [done |].
  repeat split; congruence.
Qed.

Lemma getCountryName_agree_witness :
  let countries := [Country.mk "CO" "Colombia" "Americas"] in
  upperCodes countries ∧
  SummaryPage.getCountryName countries " co " = "Colombia" ∧
  ProvidersPage.getCountryName countries " co " = "Colombia".
Proof.
  cbn zeta. split.
  - repeat constructor.
  - apply (getCountryName_agree [Country.mk "CO" "Colombia" "Americas"] " co ").
    repeat constructor.
Defined.

(** ** The fields of the provider forms *)

Lemma arrayIncludes_elem_of (l : list string) x :
  JS.arrayIncludes l x = true ↔ x ∈ l.
Proof.
  unfold JS.arrayIncludes. rewrite existsb_exists. split.
  - intros (y & Hin & Heq). apply eqb_string_true in Heq as ->.
    by apply list_elem_of_In.
  - intros Hin. exists x. split; [by apply list_elem_of_In | by apply eqb_string_true].
Qed.

Lemma dropdown_item countries searchTerm value item :
  Some item ∈ ProviderFields.dropdown countries searchTerm value →
  (Country.code (ProviderFields.itemCountry item) ∉ value) ∧
  (ProviderFields.itemOnClick item =
     (value ++ [Country.code (ProviderFields.itemCountry item)])%list).
Proof.
  unfold ProviderFields.dropdown. intros Hin.
  apply list_elem_of_In, in_map_iff in Hin as (country & Hitem & _).
  destruct (JS.arrayIncludes value (Country.code country)) eqn:Hinc; [done |].
  injection Hitem as <-. cbn. split; [| done].
  rewrite <- arrayIncludes_elem_of. congruence.
Qed.

Lemma NoDup_snoc (value : list string) code :
  code ∉ value → NoDup value → NoDup (value ++ [code]).
Proof.
  intros Hnot Hnd. apply NoDup_app. repeat split; [done | | apply NoDup_singleton].
  intros x Hx Hx'. apply list_elem_of_singleton in Hx' as ->. done.
Qed.

Lemma onChange_noDuplicateCodes index v form :
  NoDup v → noDuplicateCodes form →
  noDuplicateCodes (ProviderFields.onChange index v form).
Proof.
  unfold noDuplicateCodes, ProviderFields.onChange. cbn. intros Hv Hform.
  apply Forall_alter; [done |]. intros service _ _. exact Hv.
Qed.

(** Every event on the fields keeps the selected codes free of duplicates. *)
Lemma handle_noDuplicateCodes countries ev form form' :
  ProviderFields.handle countries ev form = Some form' →
  noDuplicateCodes form → noDuplicateCodes form'.
Proof.
  intros Hev Hform. unfold ProviderFields.handle in Hev.
  destruct ev; simplify_option_eq; repeat case_match; simplify_eq;
    try exact Hform;
    try (by apply onChange_noDuplicateCodes; [apply NoDup_filter;
           eapply (Forall_lookup_1 _ _ _ _ Hform) |]);
    unfold noDuplicateCodes in *; cbn.
  - apply Forall_app. split; [done |]. repeat constructor.
  - by apply Forall_delete.
  - apply Forall_alter; [done |]. intros service Hservice Hnd. cbn.
    match goal with H : _ !! _ = Some (Some ?i) |- _ =>
      apply list_elem_of_lookup_2, dropdown_item in H as [Hnot ->] end.
    simplify_eq. by apply NoDup_snoc.
  - apply Forall_insert; [done |]. cbn.
    eapply Forall_lookup_1 in Hform; [exact Hform | done].
  - apply Forall_insert; [done |]. cbn.
    eapply Forall_lookup_1 in Hform; [exact Hform | done].
Qed.

(** C10.  In the country picker shared by the two forms, no dropdown entry is
    offered for a country whose code is among the selected codes of the
    service; the click on an entry appends its code; hence a selection keeps
    the selected codes of a service, and of every service of the form, free
    of duplicates. *)
Theorem country_picker_no_duplicates (countries : list Country.t) :
  (∀ searchTerm value item,
     Some item ∈ ProviderFields.dropdown countries searchTerm value →
     (Country.code (ProviderFields.itemCountry item) ∉ value) ∧
     (NoDup value → NoDup (ProviderFields.itemOnClick item))) ∧
  (∀ index searchTerm position form form',
     ProviderFields.handle countries
       (ProviderFields.ClickDropdownItem index searchTerm position) form = Some form' →
     noDuplicateCodes form → noDuplicateCodes form') ∧
  (∀ index searchTerm position st,
     noDuplicateCodes (EditProviderPage.form st) →
     noDuplicateCodes
       (EditProviderPage.form
          (EditProviderPage.handle
             (ProviderFields.ClickDropdownItem index searchTerm position)
             (EditProviderPage.setCountries countries st)))).
Proof.
  split; [| split].
  - intros searchTerm value item Hin.
    destruct (dropdown_item _ _ _ _ Hin) as [Hnot ->].
    split; [done |]. by apply NoDup_snoc.
  - intros index searchTerm position form form'. apply handle_noDuplicateCodes.
  - intros index searchTerm position st Hst.
    unfold EditProviderPage.handle.
    change (EditProviderPage.countries (EditProviderPage.setCountries countries st))
      with countries.
    change (EditProviderPage.form (EditProviderPage.setCountries countries st))
      with (EditProviderPage.form st).
    destruct (ProviderFields.handle countries _ (EditProviderPage.form st))
      as [form' |] eqn:Hev; [| done].
    by eapply handle_noDuplicateCodes.
Qed.

(** ** Running asynchronous functions *)

Lemma run_bind {S A B} net (m : Async S A) (f : A → Async S B) w :
  run net (bind m f) w =
  match run net m w with
  | (w', Normal a) => run net (f a) w'
  | (w', Abrupt e) => (w', Abrupt e)
  end.
Proof. revert w. induction m; intros w; cbn; auto. Qed.

Lemma run_mbind {S A B} net (m : Async S A) (f : A → Async S B) w :
  run net (m ≫= f) w =
  match run net m w with
  | (w', Normal a) => run net (f a) w'
  | (w', Abrupt e) => (w', Abrupt e)
  end.
Proof. apply run_bind. Qed.

Lemma run_tryCatch {S A} net (m : Async S A) handler w :
  run net (tryCatch m handler) w =
  match run net m w with
  | (w', Normal a) => (w', Normal a)
  | (w', Abrupt e) => run net (handler e) w'
  end.
Proof. revert w. induction m; intros w; cbn; auto. Qed.

Lemma run_tryFinally {S A} net (m : Async S A) cleanup w :
  run net (tryFinally m cleanup) w =
  match run net m w with
  | (w', c) =>
      match run net cleanup w' with
      | (w'', Normal _) => (w'', c)
      | (w'', Abrupt e) => (w'', Abrupt e)
      end
  end.
Proof.
  revert w. induction m; intros w; cbn; auto.
  - rewrite run_bind. by destruct (run net cleanup w) as [w' [[] |]].
  - rewrite run_bind. by destruct (run net cleanup w) as [w' [[] |]].
Qed.

Lemma run_responseErrorInterceptor {S} net error (w : World S) :
  run net (Api.responseErrorInterceptor error) w = (afterRejection error w, Abrupt error).
Proof.
  unfold Api.responseErrorInterceptor, afterRejection.
  by destruct (Api.isUnauthorized error).
Qed.

(** A request through the client: the token is read, the request leaves with
    the headers that [authorize] gives it, and a rejection passes through the
    response interceptor before it is thrown. *)
Lemma run_request {S} net config (w : World S) :
  run net (Api.request config) w =
  let w1 := recordSent (authorize w config) (readItem "auth_token" w) in
  match net (sent (browser w)) (authorize w config) with
  | Resolved d => (w1, Normal d)
  | Rejected error => (afterRejection error w1, Abrupt error)
  end.
Proof.
  unfold Api.request, Api.requestInterceptor, authorize. cbn.
  destruct (localStorage (browser w) !! "auth_token") as [t |]; cbn;
    [destruct (JS.truthy t); cbn |];
    (destruct (net _ _) as [d | error]; cbn;
     [done | apply run_responseErrorInterceptor]).
Qed.

(** The same equations for a call on the event loop. *)
Lemma start_bind {S A B} (m : Async S A) (f : A → Async S B) w :
  start (bind m f) w =
  match start m w with
  | (w', Finished (Normal a)) => start (f a) w'
  | (w', Finished (Abrupt e)) => (w', Finished (Abrupt e))
  | (w', Waiting t) => (w', Waiting (mkTask (awaiting t) (λ o, bind (resume t o) f)))
  end.
Proof. revert w. induction m; intros w; cbn; auto. Qed.

Lemma start_mbind {S A B} (m : Async S A) (f : A → Async S B) w :
  start (m ≫= f) w =
  match start m w with
  | (w', Finished (Normal a)) => start (f a) w'
  | (w', Finished (Abrupt e)) => (w', Finished (Abrupt e))
  | (w', Waiting t) => (w', Waiting (mkTask (awaiting t) (λ o, resume t o ≫= f)))
  end.
Proof. apply start_bind. Qed.

Lemma start_tryCatch {S A} (m : Async S A) handler w :
  start (tryCatch m handler) w =
  match start m w with
  | (w', Finished (Normal a)) => (w', Finished (Normal a))
  | (w', Finished (Abrupt e)) => start (handler e) w'
  | (w', Waiting t) =>
      (w', Waiting (mkTask (awaiting t) (λ o, tryCatch (resume t o) handler)))
  end.
Proof. revert w. induction m; intros w; cbn; auto. Qed.

Lemma start_tryFinally {S A} (m : Async S A) cleanup w :
  start (tryFinally m cleanup) w =
  match start m w with
  | (w', Finished c) =>
      match start cleanup w' with
      | (w'', Finished (Normal _)) => (w'', Finished c)
      | (w'', Finished (Abrupt e)) => (w'', Finished (Abrupt e))
      | (w'', Waiting t) =>
          (w'', Waiting (mkTask (awaiting t) (λ o, bind (resume t o) (λ _, complete c))))
      end
  | (w', Waiting t) =>
      (w', Waiting (mkTask (awaiting t) (λ o, tryFinally (resume t o) cleanup)))
  end.
Proof.
  revert w. induction m; intros w; cbn; auto.
  - rewrite start_bind. by destruct (start cleanup w) as [w' [[[] |] | t]].
  - rewrite start_bind. by destruct (start cleanup w) as [w' [[[] |] | t]].
Qed.

Lemma start_request {S} config (w : World S) :
  start (Api.request config) w =
  (recordSent (authorize w config) (readItem "auth_token" w),
   Waiting (mkTask (authorize w config)
              (λ outcome,
                 match outcome with
                 | Resolved d => mret d
                 | Rejected error => Api.responseErrorInterceptor error
                 end))).
Proof.
  unfold Api.request, Api.requestInterceptor, authorize. cbn.
  destruct (localStorage (browser w) !! "auth_token") as [t |]; cbn;
    [destruct (JS.truthy t); cbn |]; done.
Qed.

(** ** What occurs in an asynchronous function *)
Section NodesFacts.
Context {S : Type}.
Context (okKey : string → Prop) (okEffect : Effect S → Prop)
  (okRequest : Request.t → Prop).

Local Abbreviation nodes := (nodes okKey okEffect okRequest).

Lemma nodes_bind {A B} (m : Async S A) (f : A → Async S B) :
  nodes m → (∀ a, nodes (f a)) → nodes (bind m f).
Proof. induction 1; intros Hf; cbn; try constructor; auto. Qed.

Lemma nodes_mbind {A B} (m : Async S A) (f : A → Async S B) :
  nodes m → (∀ a, nodes (f a)) → nodes (m ≫= f).
Proof. apply nodes_bind. Qed.

Lemma nodes_mret {A} (a : A) : nodes (mret a : Async S A).
Proof. constructor. Qed.

Lemma nodes_tryCatch {A} (m : Async S A) handler :
  nodes m → (∀ e, nodes (handler e)) → nodes (tryCatch m handler).
Proof. induction 1; intros Hh; cbn; try constructor; auto. Qed.

Lemma nodes_tryFinally {A} (m : Async S A) cleanup :
  nodes m → nodes cleanup → nodes (tryFinally m cleanup).
Proof.
  induction 1; intros Hc; cbn; try (constructor; auto);
    apply nodes_bind; auto; constructor.
Qed.

Lemma nodes_effect e : okEffect e → nodes (effect e).
Proof. intros. by repeat constructor. Qed.

Lemma nodes_setState f : okEffect (SetState f) → nodes (setState f).
Proof. apply nodes_effect. Qed.

Lemma nodes_getItem key : okKey key → nodes (getItem key).
Proof. intros. by repeat constructor. Qed.

Lemma nodes_responseErrorInterceptor error :
  okEffect (RemoveItem "auth_token") → okEffect (SetHref "/login") →
  nodes (Api.responseErrorInterceptor error).
Proof.
  intros Hrm Hhref. unfold Api.responseErrorInterceptor.
  destruct (Api.isUnauthorized error); cbn; repeat constructor; done.
Qed.

Lemma nodes_request config :
  okKey "auth_token" →
  okEffect (RemoveItem "auth_token") → okEffect (SetHref "/login") →
  okRequest config → (∀ v, okRequest (Api.setAuthorization v config)) →
  nodes (Api.request config).
Proof.
  intros Hkey Hrm Hhref Hc Hv. unfold Api.request, Api.requestInterceptor. cbn.
  constructor; [done |].
  intros [t |]; [destruct (JS.truthy t) |]; cbn;
    (constructor; [done |]);
    (intros [d | error]; cbn;
     [constructor | by apply nodes_responseErrorInterceptor]).
Qed.

Lemma nodes_if {A} (b : bool) (m1 m2 : Async S A) :
  nodes m1 → nodes m2 → nodes (if b then m1 else m2).
Proof. by destruct b. Qed.

End NodesFacts.

Lemma nodes_impl {S A} (okKey okKey' : string → Prop)
    (okEffect okEffect' : Effect S → Prop) (okRequest okRequest' : Request.t → Prop)
    (m : Async S A) :
  nodes okKey okEffect okRequest m →
  (∀ key, okKey key → okKey' key) →
  (∀ e, okEffect e → okEffect' e) →
  (∀ r, okRequest r → okRequest' r) →
  nodes okKey' okEffect' okRequest' m.
Proof. induction 1; intros Hk He Hr; constructor; auto. Qed.

(** ** Worlds that come after a world *)
Section ExtendsFacts.
Context {S : Type} (okCall : StorageCall → Prop) (okRequest : Request.t → Prop).

Local Abbreviation extends := (@extends S okCall okRequest).

Lemma extends_refl w : extends w w.
Proof.
  repeat split; try (exists []; by rewrite app_nil_r).
Qed.

Lemma extends_trans w1 w2 w3 : extends w1 w2 → extends w2 w3 → extends w1 w3.
Proof.
  intros ((c1 & Hc1 & Hok1) & (r1 & Hr1 & Hrok1) & Hk1)
         ((c2 & Hc2 & Hok2) & (r2 & Hr2 & Hrok2) & Hk2).
  repeat split.
  - exists (c1 ++ c2). rewrite Hc2, Hc1, app_assoc. split; [done |].
    by apply Forall_app.
  - exists (r1 ++ r2). rewrite Hr2, Hr1, app_assoc. split; [done |].
    by apply Forall_app.
  - intros k Hk. rewrite Hk2, Hk1 by done. done.
Qed.

Lemma extends_readItem key w : okCall (GetItemCall key) → extends w (readItem key w).
Proof.
  intros Hok. repeat split; cbn.
  - exists [GetItemCall key]. split; [done |]. by repeat constructor.
  - exists []. by rewrite app_nil_r.
Qed.

Lemma extends_perform e w :
  (∀ c, callOf e = Some c → okCall c) → extends w (perform e w).
Proof.
  intros Hok. destruct e; cbn; repeat split; cbn;
    try (exists []; by rewrite app_nil_r).
  - eexists. split; [done |]. repeat constructor. by apply Hok.
  - intros k Hk. apply lookup_insert_ne. by apply (Hk (SetItemCall key value)), Hok.
  - eexists. split; [done |]. repeat constructor. by apply Hok.
  - intros k Hk. apply lookup_delete_ne. by apply (Hk (RemoveItemCall key)), Hok.
Qed.

Lemma extends_recordSent r w : okRequest r → extends w (recordSent r w).
Proof.
  intros Hok. repeat split; cbn.
  - exists []. by rewrite app_nil_r.
  - exists [r]. split; [done |]. by repeat constructor.
Qed.

Local Abbreviation nodesOk :=
  (nodes (λ key, okCall (GetItemCall key))
         (λ e : Effect S, ∀ c, callOf e = Some c → okCall c)
         okRequest).

(** Whatever the backend answers, a run only adds what occurs in the
    function. *)
Lemma run_extends {A} net (m : Async S A) w :
  nodesOk m → extends w (run net m w).1.
Proof.
  intros Hm. revert w.
  induction Hm as [a | e | key k Hkey _ IH | e k He _ IH | r k Hr _ IH];
    intros w; cbn.
  - apply extends_refl.
  - apply extends_refl.
  - eapply extends_trans; [by apply extends_readItem | apply IH].
  - eapply extends_trans; [by apply extends_perform | apply IH].
  - eapply extends_trans; [by apply extends_recordSent | apply IH].
Qed.

(** The same on the event loop: a call runs until its first request, and
    what waits is again made of what occurs in the function. *)
Lemma start_extends {A} (m : Async S A) w :
  nodesOk m →
  extends w (start m w).1 ∧
  ∀ t, (start m w).2 = Waiting t → okRequest (awaiting t) ∧ ∀ o, nodesOk (resume t o).
Proof.
  intros Hm. revert w.
  induction Hm as [a | e | key k Hkey _ IH | e k He _ IH | r k Hr Hk _];
    intros w; cbn.
  - split; [apply extends_refl | done].
  - split; [apply extends_refl | done].
  - destruct (IH (localStorage (browser w) !! key) (readItem key w)) as [Hext Ht].
    split; [| done]. eapply extends_trans; [by apply extends_readItem | done].
  - destruct (IH (perform e w)) as [Hext Ht].
    split; [| done]. eapply extends_trans; [by apply extends_perform | done].
  - split; [by apply extends_recordSent |]. by intros t [= <-].
Qed.

Local Abbreviation tasksOk := (@tasksOk S okCall okRequest).

Lemma spawn_extends (m : Async S unit) l :
  nodesOk m → tasksOk l →
  extends (world l) (world (spawn m l)) ∧ tasksOk (spawn m l).
Proof.
  intros Hm Hl. unfold spawn.
  destruct (start_extends m (world l) Hm) as [Hext Ht].
  destruct (start m (world l)) as [w [c | t]]; cbn in *; (split; [done |]).
  - done.
  - apply Forall_app. split; [done |]. constructor; [| done]. by apply Ht.
Qed.

Lemma spawnAll_extends (ms : list (Async S unit)) l :
  Forall (λ m, nodesOk m) ms → tasksOk l →
  extends (world l) (world (spawnAll ms l)) ∧ tasksOk (spawnAll ms l).
Proof.
  unfold spawnAll. intros Hms. revert l.
  induction Hms as [| m ms Hm _ IH]; intros l Hl; cbn.
  - split; [apply extends_refl | done].
  - destruct (spawn_extends m l Hm Hl) as [Hext Hl'].
    destruct (IH (spawn m l) Hl') as [Hext' Hl''].
    split; [by eapply extends_trans | done].
Qed.

Lemma deliver_extends i o l :
  tasksOk l → extends (world l) (world (deliver i o l)) ∧ tasksOk (deliver i o l).
Proof.
  intros Hl. unfold deliver.
  destruct (pending l !! i) as [t |] eqn:Ht; [| split; [apply extends_refl | done]].
  apply (spawn_extends _ (mkLoop (world l) (delete i (pending l)))).
  - by apply (Forall_lookup_1 _ _ _ _ Hl Ht).
  - by apply Forall_delete.
Qed.

Lemma reaches_extends l0 l :
  reaches l0 l → tasksOk l0 → extends (world l0) (world l) ∧ tasksOk l.
Proof.
  induction 1 as [| l i o _ IH _]; intros Hl0.
  - split; [apply extends_refl | done].
  - destruct (IH Hl0) as [Hext Hl].
    destruct (deliver_extends i o l Hl) as [Hext' Hl'].
    split; [by eapply extends_trans | done].
Qed.

End ExtendsFacts.

(** ** What occurs in the operations of the frontend *)

Ltac nodes_step :=
  lazymatch goal with
  | |- ∀ _, _ => intros
  | |- nodes _ _ _ (_ ≫= _) => apply nodes_mbind
  | |- nodes _ _ _ (tryCatch _ _) => apply nodes_tryCatch
  | |- nodes _ _ _ (tryFinally _ _) => apply nodes_tryFinally
  | |- nodes _ _ _ (Api.get _ _) => apply nodes_request
  | |- nodes _ _ _ (Api.post _ _) => apply nodes_request
  | |- nodes _ _ _ (Api.put _ _) => apply nodes_request
  | |- nodes _ _ _ (effect _) => apply nodes_effect
  | |- nodes _ _ _ (setState _) => apply nodes_setState
  | |- nodes _ _ _ (getItem _) => apply nodes_getItem
  | |- nodes _ _ _ Api.isAuthenticated => unfold Api.isAuthenticated
  | |- nodes _ _ _ (mret _) => apply nodes_mret
  | |- nodes _ _ _ (Throw _) => apply nodes_Throw
  | |- nodes _ _ _ (if ?b then _ else _) => destruct b
  | |- nodes _ _ _ (match ?x with _ => _ end) => destruct x
  end.

Ltac unfold_operation :=
  unfold Api.login, Api.logout, AuthGuard.effect_, Api.isAuthenticated,
    SummaryPage.fetchData, ProvidersPage.fetchProviders, ProvidersPage.fetchCountries,
    EditProviderPage.fetchProvider, EditProviderPage.fetchCountries,
    EditProviderPage.onSubmit, NewProviderPage.fetchCountries,
    NewProviderPage.onSubmit.

Lemma operation_requests op :
  nodes (λ _, True) (λ _, True) (λ r, endpoint r ∈ endpointsOf op) (code (program op)).
Proof.
  destruct op; cbn [program code endpointsOf]; unfold_operation;
    repeat nodes_step; try done; unfold endpoint; cbn; repeat constructor.
Qed.

Lemma operation_storage op :
  nodes (λ key, tokenCall op (GetItemCall key))
        (λ e, ∀ c, callOf e = Some c → tokenCall op c)
        (λ _, True) (code (program op)).
Proof.
  destruct op; cbn [program code]; unfold_operation;
    repeat nodes_step; try done;
    match goal with H : callOf _ = Some _ |- _ => injection H as <- end; done.
Qed.

Lemma requests_endpoints op r : requests op r → endpoint r ∈ endpointsOf op.
Proof.
  intros (net & w & Hw & Hr).
  destruct (run_extends (λ _, True) (λ r, endpoint r ∈ endpointsOf op)
              net (code (program op)) w) as (_ & (rs & Hrs & Hok) & _).
  - eapply nodes_impl; [apply operation_requests | done..].
  - rewrite Hrs, Hw in Hr. cbn in Hr.
    by apply (proj1 (Forall_forall _ _) Hok).
Qed.

Lemma operation_sends op :
  map endpoint (sent (browser (run fulfilling (code (program op)) (initialWorld op)).1))
  = endpointsOf op.
Proof. destruct op; vm_compute; reflexivity. Qed.

Lemma endpoints_requested op e :
  e ∈ endpointsOf op → ∃ r, requests op r ∧ endpoint r = e.
Proof.
  rewrite <- operation_sends. intros He.
  apply list_elem_of_In, in_map_iff in He as (r & Hr & Hin).
  exists r. split; [| done].
  exists fulfilling, (initialWorld op). split; [done |]. by apply list_elem_of_In.
Qed.

(** C5, as stated, fails in its last part: creating a provider posts to
    [/Provider/with-details] and updating one puts to [/Provider/{id}];
    neither requests [/Provider]. *)
Lemma create_update_not_on_Provider :
  (∀ r, requests (NewOnSubmit NewProviderPage.defaultValues) r →
        Request.url r ≠ "/Provider") ∧
  (∀ r, requests (EditOnSubmit "7" EditProviderPage.defaultValues) r →
        Request.url r ≠ "/Provider") ∧
  (∃ r, requests (NewOnSubmit NewProviderPage.defaultValues) r ∧
        endpoint r = (POST, "/Provider/with-details")) ∧
  (∃ r, requests (EditOnSubmit "7" EditProviderPage.defaultValues) r ∧
        endpoint r = (PUT, "/Provider/7")).
Proof.
  split; [| split; [| split]].
  - intros r Hr%requests_endpoints Hurl. cbn in Hr.
    apply list_elem_of_singleton in Hr. unfold endpoint in Hr.
    rewrite Hurl in Hr. discriminate.
  - intros r Hr%requests_endpoints Hurl. cbn in Hr.
    apply list_elem_of_singleton in Hr. unfold endpoint in Hr.
    rewrite Hurl in Hr. discriminate.
  - apply endpoints_requested. cbn. apply list_elem_of_here.
  - apply endpoints_requested. cbn. apply list_elem_of_here.
Qed.

(** C5, amended.  Every request of an operation goes to one of the endpoints
    listed for it by [endpointsOf], and each of them is requested: the
    paginated list is [GET /Provider], the creation is
    [POST /Provider/with-details], the update is [PUT /Provider/{id}], the
    edit form loads [GET /Provider/{id}].  Hence the paths requested are
    exactly [/Auth/login], [/Provider], [/Provider/{id}],
    [/Provider/with-details], [/Country] and [/Summary]. *)
Theorem backend_endpoints :
  (∀ op r, requests op r → endpoint r ∈ endpointsOf op) ∧
  (∀ op e, e ∈ endpointsOf op → ∃ r, requests op r ∧ endpoint r = e) ∧
  (∀ op r, requests op r → backendPath (Request.url r)) ∧
  (∀ u, backendPath u → ∃ op r, requests op r ∧ Request.url r = u).
Proof.
  split; [exact requests_endpoints |].
  split; [exact endpoints_requested |].
  split.
  - intros op r Hr%requests_endpoints. unfold backendPath.
    destruct r as [m u ps hs d]. unfold endpoint in Hr. cbn in *.
    destruct op; cbn in Hr;
      repeat (apply elem_of_cons in Hr as [Hr | Hr]);
      try (by apply elem_of_nil in Hr);
      injection Hr as -> ->; eauto 10.
  - intros u Hu.
    assert (∃ op m, (m, u) ∈ endpointsOf op) as (op & m & Hin).
    { destruct Hu as [-> | [-> | [[id ->] | [-> | [-> | ->]]]]].
      - exists (AuthLogin "" ""), POST. apply list_elem_of_here.
      - exists (ProvidersFetchProviders 1), GET. apply list_elem_of_here.
      - exists (EditFetchProvider id), GET. apply list_elem_of_here.
      - exists (NewOnSubmit NewProviderPage.defaultValues), POST.
        apply list_elem_of_here.
      - exists NewFetchCountries, GET. apply list_elem_of_here.
      - exists SummaryFetchData, GET. apply list_elem_of_here. }
    apply endpoints_requested in Hin as (r & Hr & Hend).
    exists op, r. split; [done |]. by injection Hend.
Qed.

Lemma backend_endpoints_witness :
  (∃ r, requests SummaryFetchData r ∧ endpoint r = (GET, "/Country")) ∧
  (∃ op r, requests op r ∧ Request.url r = "/Provider/with-details").
Proof.
  split.
  - apply (proj1 (proj2 backend_endpoints) SummaryFetchData).
    cbn. apply list_elem_of_further, list_elem_of_here.
  - apply (proj2 (proj2 (proj2 backend_endpoints))).
    unfold backendPath. auto 6.
Defined.

(** ** The bearer token *)

Lemma truthy_nonempty (s : string) : JS.truthy s = true ↔ s ≠ "".
Proof.
  unfold JS.truthy. rewrite negb_true_iff, <- not_true_iff_false, eqb_string_true.
  done.
Qed.

Lemma sent_afterRejection {S} error (w : World S) :
  sent (browser (afterRejection error w)) = sent (browser w).
Proof. unfold afterRejection. by destruct (Api.isUnauthorized error). Qed.

Lemma request_sent {S} net config (w : World S) :
  sent (browser (run net (Api.request config) w).1) =
  sent (browser w) ++ [authorize w config].
Proof.
  rewrite run_request. cbn zeta.
  destruct (net _ _); cbn; [done |]. by rewrite sent_afterRejection.
Qed.

(** C4, as stated, fails when the value stored under [auth_token] is the
    empty string: the storage contains a value, yet the request leaves
    without an [Authorization] header. *)
Lemma empty_token_no_header :
  let w := mkWorld (mkBrowser {[ "auth_token" := "" ]} [] [] None [] []) () in
  localStorage (browser w) !! "auth_token" = Some "" ∧
  ∃ r, sent (browser (run fulfilling (Api.get "/Country" []) w).1) = [r] ∧
       Request.headers r !! "Authorization" = None.
Proof.
  cbn zeta. split; [reflexivity |].
  eexists. split; [unfold Api.get; rewrite request_sent; reflexivity | reflexivity].
Qed.

(** C4, amended.  A request through the client leaves as one request.  If
    the storage holds a non-empty value under [auth_token], it is the
    configured request with the header [Authorization] set to [Bearer ]
    followed by that value; if it holds no value, or the empty string, the
    request interceptor leaves the request, headers included, as configured. *)
Theorem request_authorization {S} (net : Network) (config : Request.t) (w : World S) :
  ∃ r,
    sent (browser (run net (Api.request config) w).1) = sent (browser w) ++ [r] ∧
    (run net (Api.requestInterceptor config) w).2 = Normal r ∧
    (∀ token,
       localStorage (browser w) !! "auth_token" = Some token → token ≠ "" →
       r = Api.setAuthorization ("Bearer " +:+ token) config ∧
       Request.headers r !! "Authorization" = Some ("Bearer " +:+ token)) ∧
    (localStorage (browser w) !! "auth_token" = None ∨
     localStorage (browser w) !! "auth_token" = Some "" →
     r = config).
Proof.
  exists (authorize w config). split; [apply request_sent |].
  unfold Api.requestInterceptor, authorize. cbn.
  destruct (localStorage (browser w) !! "auth_token") as [t |] eqn:Ht.
  - destruct (JS.truthy t) eqn:Htruthy; cbn.
    + split; [done |]. split.
      * intros token [= <-] _. split; [done |]. cbn. apply lookup_insert_eq.
      * intros [? | [= ->]]; [done | by cbv in Htruthy].
    + split; [done |]. split.
      * intros token [= <-] Hne. apply truthy_nonempty in Hne. congruence.
      * done.
  - cbn. split; [done |]. split; [done | done].
Qed.

Lemma request_authorization_witness :
  let w := mkWorld (mkBrowser {[ "auth_token" := "abc" ]} [] [] None [] []) () in
  ∃ r,
    sent (browser (run fulfilling (Api.request
       (Request.mk GET "/Country" [] Api.defaultHeaders NoBody)) w).1) = [r] ∧
    Request.headers r !! "Authorization" = Some "Bearer abc".
Proof.
  cbn zeta.
  destruct (request_authorization fulfilling
              (Request.mk GET "/Country" [] Api.defaultHeaders NoBody)
              (mkWorld (mkBrowser {[ "auth_token" := "abc" ]} [] [] None [] []) ()))
    as (r & Hsent & _ & Hsome & _).
  exists r. split; [exact Hsent |].
  apply (Hsome "abc"); [reflexivity | discriminate].
Defined.

(** ** The durable storage *)

Lemma tokenCall_key op c : tokenCall op c → callKey c = "auth_token".
Proof. destruct c; cbn; intuition. Qed.

(** [login] writes the token it received, and nothing else. *)
Lemma login_writes net username password (w : World ()) k v calls :
  storageCalls (browser (run net (Api.login username password) w).1) =
    storageCalls (browser w) ++ calls →
  SetItemCall k v ∈ calls →
  ∃ r d, Request.url r = "/Auth/login" ∧
         net (sent (browser w)) r = Resolved d ∧ tokenOf d = Some v.
Proof.
  unfold Api.login, Api.post.
  rewrite run_tryCatch, run_mbind, run_request. cbn zeta.
  set (r := authorize w _).
  assert (Hurl : Request.url r = "/Auth/login").
  { unfold r, authorize. by repeat case_match. }
  destruct (net (sent (browser w)) r) as [d | error] eqn:Hnet.
  - destruct (tokenOf d) as [t |] eqn:Ht; [destruct (JS.truthy t) |]; cbn;
      try rewrite <- app_assoc; intros Heq%app_inv_head; subst calls; intros Hin;
      repeat (apply elem_of_cons in Hin as [Hin | Hin]; try discriminate);
      try (by apply elem_of_nil in Hin).
    injection Hin as -> ->. by exists r, d.
  - cbn. unfold afterRejection. destruct (Api.isUnauthorized error); cbn;
      try rewrite <- app_assoc; intros Heq%app_inv_head; subst calls; intros Hin;
      repeat (apply elem_of_cons in Hin as [Hin | Hin]; try discriminate);
      by apply elem_of_nil in Hin.
Qed.

(** C6.  Whatever the backend answers, an operation touches the durable
    storage only under the key [auth_token]: every call of the Storage API
    that it makes reads, removes or, in [login] only, writes that key; what is
    written is the token of the login response; every other key keeps its
    value.  Fetched entities are therefore held by component state alone. *)
Theorem storage_only_token (op : Operation) (net : Network)
    (w : World (stateOf (program op))) :
  let w' := (run net (code (program op)) w).1 in
  ∃ calls,
    storageCalls (browser w') = storageCalls (browser w) ++ calls ∧
    Forall (tokenCall op) calls ∧
    Forall (λ c, callKey c = "auth_token") calls ∧
    (∀ k v, SetItemCall k v ∈ calls →
       ∃ r d, Request.url r = "/Auth/login" ∧
              net (sent (browser w)) r = Resolved d ∧ tokenOf d = Some v) ∧
    (∀ k, k ≠ "auth_token" →
       localStorage (browser w') !! k = localStorage (browser w) !! k).
Proof.
  cbn zeta.
  destruct (run_extends (tokenCall op) (λ _, True) net (code (program op)) w)
    as ((calls & Hcalls & Hok) & _ & Hframe).
  { apply operation_storage. }
  exists calls. split; [done |]. split; [done |].
  split; [eapply Forall_impl; [exact Hok | apply tokenCall_key] |].
  split.
  - intros k v Hin.
    assert (Hset : tokenCall op (SetItemCall k v)).
    { by apply (proj1 (Forall_forall _ _) Hok). }
    destruct op; try (by destruct Hset).
    cbn [program code stateOf] in *.
    exact (login_writes net username password w k v calls Hcalls Hin).
  - intros k Hk. apply Hframe. intros c Hc%tokenCall_key. congruence.
Qed.

(** The same holds while the calls of a page load are in flight together,
    in whatever order the responses arrive: the storage is only read or
    cleared under [auth_token], and every other key keeps its value. *)
Lemma page_load_storage :
  (∀ w l, reaches (spawnAll SummaryPage.mount (mkLoop w [])) l →
          extends tokenAccess (λ _, True) w (world l)) ∧
  (∀ st w l, reaches (spawnAll (ProvidersPage.effect_ st) (mkLoop w [])) l →
             extends tokenAccess (λ _, True) w (world l)) ∧
  (∀ providerId w l,
     reaches (spawnAll (EditProviderPage.mount providerId) (mkLoop w [])) l →
     extends tokenAccess (λ _, True) w (world l)) ∧
  (∀ w l, reaches (spawnAll NewProviderPage.mount (mkLoop w [])) l →
          extends tokenAccess (λ _, True) w (world l)).
Proof.
  assert (Hop : ∀ op,
            match op with AuthLogin _ _ => False | _ => True end →
            nodes (λ key, tokenAccess (GetItemCall key))
                  (λ e, ∀ c, callOf e = Some c → tokenAccess c)
                  (λ _, True) (code (program op))).
  { intros op Hop. eapply nodes_impl; [apply operation_storage | | | done].
    - intros key H. exact H.
    - intros e He c Hc. specialize (He c Hc).
      destruct c; cbn in *; [done | | done]. by destruct He as [_ He], op. }
  assert (Hloop : ∀ S (ms : list (Async S unit)) w l,
            Forall (nodes (λ key, tokenAccess (GetItemCall key))
                          (λ e, ∀ c, callOf e = Some c → tokenAccess c)
                          (λ _, True)) ms →
            reaches (spawnAll ms (mkLoop w [])) l →
            extends tokenAccess (λ _, True) w (world l)).
  { intros S ms w l Hms Hl.
    destruct (spawnAll_extends tokenAccess (λ _, True) ms (mkLoop w []) Hms)
      as [Hext Htasks]; [constructor |].
    destruct (reaches_extends tokenAccess (λ _, True) _ _ Hl Htasks) as [Hext' _].
    by eapply (extends_trans _ _ _ _ _ Hext Hext'). }
  split; [| split; [| split]].
  - intros w l. apply Hloop.
    apply Forall_cons. split; [| by apply Forall_nil].
    by apply (Hop SummaryFetchData).
  - intros st w l. apply Hloop.
    apply Forall_cons. split; [| apply Forall_cons; split; [| by apply Forall_nil]].
    + by apply (Hop ProvidersFetchCountries).
    + by apply (Hop (ProvidersFetchProviders (ProvidersPage.currentPage st))).
  - intros providerId w l. apply Hloop.
    apply Forall_cons. split; [| apply Forall_cons; split; [| by apply Forall_nil]].
    + by apply (Hop (EditFetchProvider providerId)).
    + by apply (Hop EditFetchCountries).
  - intros w l. apply Hloop.
    apply Forall_cons. split; [| by apply Forall_nil].
    by apply (Hop NewFetchCountries).
Qed.

(** ** Requests in flight *)

Lemma outstanding_spawn {S} (m : Async S unit) l :
  (outstanding (spawn m l) ≤ outstanding l + 1)%nat.
Proof.
  unfold spawn, outstanding.
  destruct (start m (world l)) as [w [c | t]]; cbn; [| rewrite length_app; cbn]; lia.
Qed.

Lemma outstanding_spawnAll {S} (ms : list (Async S unit)) l :
  (outstanding (spawnAll ms l) ≤ outstanding l + length ms)%nat.
Proof.
  unfold spawnAll. revert l.
  induction ms as [| m ms IH]; intros l; cbn; [lia |].
  specialize (IH (spawn m l)). pose proof (outstanding_spawn m l). lia.
Qed.

(** An arrival resumes one waiting task, which then waits for at most one
    request: the number of requests in flight never grows. *)
Lemma outstanding_deliver {S} i o (l : Loop S) :
  (outstanding (deliver i o l) ≤ outstanding l)%nat.
Proof.
  unfold deliver. destruct (pending l !! i) as [t |] eqn:Ht; [| done].
  pose proof (outstanding_spawn (resume t o) (mkLoop (world l) (delete i (pending l)))) as H.
  unfold outstanding in *. cbn in H. rewrite length_delete in H by eauto.
  apply lookup_lt_Some in Ht. lia.
Qed.

Lemma reaches_outstanding {S} (l0 l : Loop S) :
  reaches l0 l → (outstanding l ≤ outstanding l0)%nat.
Proof.
  induction 1 as [| l i o _ IH _]; [done |].
  pose proof (outstanding_deliver i o l). lia.
Qed.

Lemma endpoint_authorize {S} (w : World S) config :
  endpoint (authorize w config) = endpoint config.
Proof. unfold authorize. by repeat case_match. Qed.

Ltac start_equations :=
  repeat first
    [ rewrite start_mbind | rewrite start_tryFinally | rewrite start_tryCatch
    | rewrite start_request
    | progress cbn [start effect setState fst snd mret Async_ret] ].

Lemma providers_effect_outstanding w st :
  outstanding (spawnAll (ProvidersPage.effect_ st) (mkLoop w [])) = 2%nat ∧
  map (λ t, endpoint (awaiting t))
      (pending (spawnAll (ProvidersPage.effect_ st) (mkLoop w [])))
  = [(GET, "/Country"); (GET, "/Provider")].
Proof.
  unfold spawnAll, ProvidersPage.effect_, ProvidersPage.fetchCountries,
    ProvidersPage.fetchProviders, Api.get, spawn, outstanding.
  cbn [foldl world pending]. start_equations.
  cbn [world pending app]. start_equations.
  cbn. by rewrite !endpoint_authorize.
Qed.

Lemma edit_mount_outstanding w providerId :
  outstanding (spawnAll (EditProviderPage.mount providerId) (mkLoop w [])) = 2%nat ∧
  map (λ t, endpoint (awaiting t))
      (pending (spawnAll (EditProviderPage.mount providerId) (mkLoop w [])))
  = [(GET, "/Provider/" +:+ providerId); (GET, "/Country")].
Proof.
  unfold spawnAll, EditProviderPage.mount, EditProviderPage.fetchCountries,
    EditProviderPage.fetchProvider, Api.get, spawn, outstanding.
  cbn [foldl world pending]. start_equations.
  cbn [world pending app]. start_equations.
  cbn. by rewrite !endpoint_authorize.
Qed.

Lemma summary_mount_sequence w d :
  let l1 := spawnAll SummaryPage.mount (mkLoop w []) in
  map (λ t, endpoint (awaiting t)) (pending l1) = [(GET, "/Summary")] ∧
  map (λ t, endpoint (awaiting t)) (pending (deliver 0 (Resolved d) l1))
  = [(GET, "/Country")].
Proof.
  cbn zeta.
  unfold spawnAll, SummaryPage.mount, SummaryPage.fetchData, Api.get, spawn, deliver.
  cbn [foldl world pending]. start_equations.
  cbn [world pending app lookup list_lookup resume delete list_delete].
  split; [cbn; by rewrite endpoint_authorize |].
  unfold spawn. cbn [world pending]. start_equations.
  cbn. by rewrite endpoint_authorize.
Qed.

(** C3, as stated, fails: the effect of the provider list calls
    [fetchCountries] and [fetchProviders] one after the other without
    awaiting, so that two requests are in flight at once. *)
Lemma providers_page_two_outstanding :
  outstanding
    (spawnAll (ProvidersPage.effect_ ProvidersPage.initialState)
       (mkLoop (mkWorld emptyBrowser ProvidersPage.initialState) [])) = 2%nat ∧
  ¬ (outstanding
       (spawnAll (ProvidersPage.effect_ ProvidersPage.initialState)
          (mkLoop (mkWorld emptyBrowser ProvidersPage.initialState) [])) ≤ 1)%nat.
Proof.
  destruct (providers_effect_outstanding
              (mkWorld emptyBrowser ProvidersPage.initialState)
              ProvidersPage.initialState) as [H _].
  split; [exact H |]. rewrite H. intros Hle. by apply Nat.nle_succ_diag_l in Hle.
Qed.

(** C3, amended.  An asynchronous function awaits each request before it
    issues the next one, so an arrival never raises the number of requests in
    flight.  The load of the summary page (which requests [/Summary], then
    [/Country]), the load of the creation form and each submit have at most
    one request in flight at any time.  The load of the provider list starts
    [/Country] and [/Provider] together, and the load of the edit form starts
    [/Provider/{id}] and [/Country] together: two requests are in flight, and
    never more. *)
Theorem outstanding_requests :
  (∀ S (l0 l : Loop S), reaches l0 l → (outstanding l ≤ outstanding l0)%nat) ∧
  (∀ w l, reaches (spawnAll SummaryPage.mount (mkLoop w [])) l →
          (outstanding l ≤ 1)%nat) ∧
  (∀ w d,
     map (λ t, endpoint (awaiting t))
         (pending (spawnAll SummaryPage.mount (mkLoop w []))) = [(GET, "/Summary")] ∧
     map (λ t, endpoint (awaiting t))
         (pending (deliver 0 (Resolved d) (spawnAll SummaryPage.mount (mkLoop w []))))
     = [(GET, "/Country")]) ∧
  (∀ w l, reaches (spawnAll NewProviderPage.mount (mkLoop w [])) l →
          (outstanding l ≤ 1)%nat) ∧
  (∀ w data l, reaches (spawn (NewProviderPage.onSubmit data) (mkLoop w [])) l →
               (outstanding l ≤ 1)%nat) ∧
  (∀ w providerId data l,
     reaches (spawn (EditProviderPage.onSubmit providerId data) (mkLoop w [])) l →
     (outstanding l ≤ 1)%nat) ∧
  (∀ w st,
     outstanding (spawnAll (ProvidersPage.effect_ st) (mkLoop w [])) = 2%nat ∧
     ∀ l, reaches (spawnAll (ProvidersPage.effect_ st) (mkLoop w [])) l →
          (outstanding l ≤ 2)%nat) ∧
  (∀ w providerId,
     outstanding (spawnAll (EditProviderPage.mount providerId) (mkLoop w [])) = 2%nat ∧
     ∀ l, reaches (spawnAll (EditProviderPage.mount providerId) (mkLoop w [])) l →
          (outstanding l ≤ 2)%nat).
Proof.
  split; [intros S; apply reaches_outstanding |].
  split.
  { intros w l Hl%reaches_outstanding.
    assert (H : (outstanding (spawnAll SummaryPage.mount (mkLoop w [])) ≤ 1)%nat)
      by apply (outstanding_spawnAll SummaryPage.mount (mkLoop w [])).
    lia. }
  split; [intros w d; apply summary_mount_sequence |].
  split.
  { intros w l Hl%reaches_outstanding.
    assert (H : (outstanding (spawnAll NewProviderPage.mount (mkLoop w [])) ≤ 1)%nat)
      by apply (outstanding_spawnAll NewProviderPage.mount (mkLoop w [])).
    lia. }
  split.
  { intros w data l Hl%reaches_outstanding.
    assert (H : (outstanding (spawn (NewProviderPage.onSubmit data) (mkLoop w [])) ≤ 1)%nat)
      by apply (outstanding_spawn (NewProviderPage.onSubmit data) (mkLoop w [])).
    lia. }
  split.
  { intros w providerId data l Hl%reaches_outstanding.
    assert (H : (outstanding (spawn (EditProviderPage.onSubmit providerId data)
                                (mkLoop w [])) ≤ 1)%nat)
      by apply (outstanding_spawn (EditProviderPage.onSubmit providerId data)
                  (mkLoop w [])).
    lia. }
  split.
  { intros w st. destruct (providers_effect_outstanding w st) as [Hn _].
    split; [done |]. intros l Hl%reaches_outstanding. lia. }
  intros w providerId. destruct (edit_mount_outstanding w providerId) as [Hn _].
  split; [done |]. intros l Hl%reaches_outstanding. lia.
Qed.

Lemma outstanding_requests_witness :
  let l0 := spawnAll SummaryPage.mount
              (mkLoop (mkWorld emptyBrowser SummaryPage.initialState) []) in
  reaches l0 (deliver 0 (Resolved NoData) l0) ∧
  (outstanding (deliver 0 (Resolved NoData) l0) ≤ 1)%nat.
Proof.
  cbn zeta.
  assert (H : reaches
            (spawnAll SummaryPage.mount
               (mkLoop (mkWorld emptyBrowser SummaryPage.initialState) []))
            (deliver 0 (Resolved NoData)
               (spawnAll SummaryPage.mount
                  (mkLoop (mkWorld emptyBrowser SummaryPage.initialState) [])))).
  { apply reaches_deliver; [apply reaches_here | vm_compute; lia]. }
  split; [exact H |].
  exact (proj1 (proj2 outstanding_requests) _ _ H).
Defined.

(** ** Failed requests *)

Ltac run_equations :=
  repeat first
    [ rewrite run_mbind | rewrite run_tryFinally | rewrite run_tryCatch
    | rewrite run_request
    | progress cbn [run effect setState getItem fst snd mret Async_ret] ].

Lemma browser_afterRejection {S} error (w : World S) :
  page (afterRejection error w) = page w ∧
  sent (browser (afterRejection error w)) = sent (browser w) ∧
  console (browser (afterRejection error w)) = console (browser w).
Proof. unfold afterRejection. by destruct (Api.isUnauthorized error). Qed.

(** The requests added by a run, against the requests that the hypothesis
    names: one request was sent, or two. *)
Lemma sent_one (r0 r : Request.t) pre post :
  [r0] = pre ++ r :: post → pre = [] ∧ r = r0 ∧ post = [].
Proof. destruct pre as [| ? [| ? ?]]; intros [=]; by subst. Qed.

Lemma sent_two (r1 r2 r : Request.t) pre post :
  [r1; r2] = pre ++ r :: post →
  (pre = [] ∧ r = r1 ∧ post = [r2]) ∨ (pre = [r1] ∧ r = r2 ∧ post = []).
Proof.
  destruct pre as [| ? [| ? [| ? ?]]]; intros [=]; subst; auto.
Qed.

Ltac failure_cases net :=
  repeat match goal with
  | |- context [net ?h ?r] =>
      let Hnet := fresh "Hnet" in
      destruct (net h r) as [? | ?] eqn:Hnet; run_equations
  | |- context [afterRejection ?e _] =>
      let H401 := fresh "H401" in
      unfold afterRejection; destruct (Api.isUnauthorized e) eqn:H401
  | |- context [match tokenOf ?d with _ => _ end] => destruct (tokenOf d) as [? |]
  | |- context [JS.truthy ?t] => destruct (JS.truthy t)
  | |- context [JS.truthyOpt ?v] => destruct (JS.truthyOpt v); cbn
  end.

(** C2, as stated, fails.  The submit handler shows the message of the
    server when there is one, so what the user reads depends on the error;
    the provider list shows nothing when its request fails; and a 401 makes
    the response interceptor remove the token and leave for [/login]. *)
Lemma failure_message_depends_on_error :
  let rejecting (e : Error) : Network := λ _ _, Rejected e in
  let edit := mkWorld emptyBrowser EditProviderPage.initialState in
  let list := mkWorld emptyBrowser ProvidersPage.initialState in
  EditProviderPage.error
    (page (run (rejecting (AxiosError (Some (ErrorResponse.mk 400 (Some "NIT already registered")))))
             (EditProviderPage.onSubmit "7" EditProviderPage.defaultValues) edit).1)
  = "NIT already registered" ∧
  EditProviderPage.error
    (page (run (rejecting (AxiosError None))
             (EditProviderPage.onSubmit "7" EditProviderPage.defaultValues) edit).1)
  = "Failed to update provider" ∧
  page (run (rejecting (AxiosError None)) (ProvidersPage.fetchProviders 1) list).1
  = ProvidersPage.setIsLoading false ProvidersPage.initialState ∧
  href (browser (run (rejecting (AxiosError (Some (ErrorResponse.mk 401 None))))
                   (ProvidersPage.fetchProviders 1) list).1)
  = Some "/login".
Proof. cbn zeta. repeat split; vm_compute; reflexivity. Qed.

(** C2, amended.  Take any run of an operation in which a request is
    rejected with [e].  No request follows the rejected one: nothing is
    retried.  The error is caught where the request was made (the operation
    completes normally; [login] alone throws the error again) and is logged
    once, under the label of the operation.  The summary page, the provider
    load of the edit form and the country load of the creation form then set
    a fixed message; the two submit handlers set the message of the server
    when it is a non-empty string and a fixed message otherwise; the other
    operations leave the page without a message.  If the response is a 401,
    the token is removed and the browser is sent to [/login]; otherwise the
    storage and the location are untouched. *)
Theorem failure_handling (op : Operation) (net : Network)
    (w : World (stateOf (program op))) (e : Error) (pre : list Request.t)
    (r : Request.t) (post : list Request.t) :
  let result := run net (code (program op)) w in
  sent (browser result.1) = sent (browser w) ++ pre ++ r :: post →
  net (sent (browser w) ++ pre) r = Rejected e →
  post = [] ∧
  console (browser result.1) = console (browser w) ++ [(logLabel op, e)] ∧
  match op with
  | AuthLogin _ _ => result.2 = Abrupt e
  | _ => ∃ a, result.2 = Normal a
  end ∧
  match surfaced op e with
  | Some message => errorState op (page result.1) = Some message
  | None => errorState op (page result.1) = errorState op (page w)
  end ∧
  (if Api.isUnauthorized e
   then localStorage (browser result.1) !! "auth_token" = None ∧
        href (browser result.1) = Some "/login"
   else localStorage (browser result.1) = localStorage (browser w) ∧
        href (browser result.1) = href (browser w)).
Proof.
  cbn zeta. intros Hsent Hrej. revert Hsent.
  destruct op; cbn [program code stateOf resultOf logLabel surfaced errorState] in *;
    unfold_operation; unfold Api.get, Api.post, Api.put;
    run_equations; cbn zeta; failure_cases net; cbn;
    rewrite <- ?app_assoc; intros Hsent;
    first [ apply app_inv_head in Hsent
          | exfalso; apply (f_equal length) in Hsent;
            rewrite !length_app in Hsent; cbn in Hsent; lia ];
    try (by destruct pre);
    try (apply sent_one in Hsent as (-> & -> & ->));
    try (apply sent_two in Hsent as [(-> & -> & ->) | (-> & -> & ->)]);
    rewrite ?app_nil_r in Hrej; cbn in *;
    repeat match goal with
           | Hn : net ?h ?r = _, Hr : net ?h ?r = Rejected _ |- _ =>
               rewrite Hn in Hr; clear Hn
           end;
    simplify_eq;
    repeat match goal with H : Api.isUnauthorized _ = _ |- _ => rewrite H end;
    repeat split; try done; try (by eexists); apply lookup_delete_eq.
Qed.

Lemma failure_handling_witness :
  let net : Network := λ _ _, Rejected (AxiosError None) in
  let w := initialWorld (ProvidersFetchProviders 1) in
  console (browser (run net (ProvidersPage.fetchProviders 1) w).1)
  = [("Error fetching providers:", AxiosError None)].
Proof.
  cbn zeta.
  apply (failure_handling (ProvidersFetchProviders 1)
           (λ _ _, Rejected (AxiosError None))
           (initialWorld (ProvidersFetchProviders 1)) (AxiosError None) []
           (Request.mk GET "/Provider" [("pageNumber", 1); ("pageSize", 2)]
              Api.defaultHeaders NoBody) []).
  - vm_compute. reflexivity.
  - reflexivity.
Defined.

(** ** The pages of the provider list *)

Lemma fetchProviders_run net (w : World ProvidersPage.State) currentPage :
  ∃ r,
    let w' := (run net (ProvidersPage.fetchProviders currentPage) w).1 in
    sent (browser w') = sent (browser w) ++ [r] ∧
    endpoint r = (GET, "/Provider") ∧
    Request.params r = [("pageNumber", currentPage); ("pageSize", 2)] ∧
    match net (sent (browser w)) r with
    | Resolved d => ProvidersPage.providerData (page w') = providerPageOf d
    | Rejected _ =>
        ProvidersPage.providerData (page w') = ProvidersPage.providerData (page w)
    end ∧
    ProvidersPage.isLoading (page w') = false ∧
    ProvidersPage.currentPage (page w') = ProvidersPage.currentPage (page w).
Proof.
  unfold ProvidersPage.fetchProviders, Api.get. run_equations. cbn zeta.
  set (w1 := perform (SetState (ProvidersPage.setIsLoading true)) w).
  set (config := Request.mk GET "/Provider" _ _ _).
  exists (authorize w1 config).
  assert (Hshape : endpoint (authorize w1 config) = (GET, "/Provider") ∧
                   Request.params (authorize w1 config)
                   = [("pageNumber", currentPage); ("pageSize", 2)]).
  { unfold authorize. by repeat case_match. }
  destruct Hshape as [Hend Hparams].
  change (sent (browser w1)) with (sent (browser w)).
  destruct (net (sent (browser w)) (authorize w1 config)) as [d | error];
    run_equations; [by cbn |].
  unfold afterRejection. by destruct (Api.isUnauthorized error).
Qed.

(** C7.  The request of [fetchProviders], which the effect of the page calls
    with the current page, carries [pageNumber] equal to that page and
    [pageSize] equal to 2, and a fulfilled response becomes [providerData].
    [Next] passes the current page plus one, [Previous] the current page
    minus one, to [handlePageChange], so that the effect then requests that
    page.  Where the buttons are rendered, [Next] is disabled exactly when
    [providerData.hasNextPage] is false and [Previous] exactly when
    [providerData.hasPreviousPage] is false. *)
Theorem provider_list_pagination :
  (∀ net (w : World ProvidersPage.State) currentPage, ∃ r,
     let w' := (run net (ProvidersPage.fetchProviders currentPage) w).1 in
     sent (browser w') = sent (browser w) ++ [r] ∧
     endpoint r = (GET, "/Provider") ∧
     Request.params r = [("pageNumber", currentPage); ("pageSize", 2)] ∧
     match net (sent (browser w)) r with
     | Resolved d => ProvidersPage.providerData (page w') = providerPageOf d
     | Rejected _ =>
         ProvidersPage.providerData (page w') = ProvidersPage.providerData (page w)
     end ∧
     ProvidersPage.isLoading (page w') = false ∧
     ProvidersPage.currentPage (page w') = ProvidersPage.currentPage (page w)) ∧
  (∀ st,
     ProvidersPage.effect_ st =
     [ProvidersPage.fetchCountries;
      ProvidersPage.fetchProviders (ProvidersPage.currentPage st)]) ∧
  (∀ st nav,
     ProvidersPage.pagination st = Some nav →
     (ProvidersPage.nextDisabled nav = true ↔
      PaginatedResponse.hasNextPage (ProvidersPage.providerData st) = false) ∧
     (ProvidersPage.previousDisabled nav = true ↔
      PaginatedResponse.hasPreviousPage (ProvidersPage.providerData st) = false) ∧
     ProvidersPage.nextPage nav = ProvidersPage.currentPage st + 1 ∧
     ProvidersPage.previousPage nav = ProvidersPage.currentPage st - 1) ∧
  (∀ st st',
     ProvidersPage.click ProvidersPage.Next st = Some st' →
     ProvidersPage.currentPage st' = ProvidersPage.currentPage st + 1 ∧
     ProvidersPage.effect_ st' =
     [ProvidersPage.fetchCountries;
      ProvidersPage.fetchProviders (ProvidersPage.currentPage st + 1)]) ∧
  (∀ st st',
     ProvidersPage.click ProvidersPage.Previous st = Some st' →
     ProvidersPage.currentPage st' = ProvidersPage.currentPage st - 1 ∧
     ProvidersPage.effect_ st' =
     [ProvidersPage.fetchCountries;
      ProvidersPage.fetchProviders (ProvidersPage.currentPage st - 1)]).
Proof.
  split; [intros net w currentPage; apply fetchProviders_run |].
  split; [done |].
  split.
  { intros st nav. unfold ProvidersPage.pagination.
    repeat case_match; intros [= <-]; cbn; try done.
    rewrite !negb_true_iff. done. }
  split.
  - intros st st'. unfold ProvidersPage.click, ProvidersPage.pagination.
    repeat case_match; cbn; try done; repeat case_match; intros [= <-]; done.
  - intros st st'. unfold ProvidersPage.click, ProvidersPage.pagination.
    repeat case_match; cbn; try done; repeat case_match; intros [= <-]; done.
Qed.

Lemma provider_list_pagination_witness :
  let st := ProvidersPage.mkState (PaginatedResponse.mk [] 1 3 5 false true)
              false 1 false [] in
  ProvidersPage.click ProvidersPage.Next st
  = Some (ProvidersPage.setCurrentPage 2 st) ∧
  ProvidersPage.currentPage (ProvidersPage.setCurrentPage 2 st) = 1 + 1.
Proof.
  cbn zeta. split; [reflexivity |].
  apply (proj1 (proj2 (proj2 (proj2 provider_list_pagination)))
           (ProvidersPage.mkState (PaginatedResponse.mk [] 1 3 5 false true)
              false 1 false [])).
  reflexivity.
Defined.

(** ** The rows of the provider forms *)

Lemma handle_nonEmptyRows countries ev form form' :
  ProviderFields.handle countries ev form = Some form' →
  nonEmptyRows form → nonEmptyRows form'.
Proof.
  unfold nonEmptyRows, ProviderFields.handle, ProviderFields.removeRendered,
    ProviderFields.remove, ProviderFields.append, ProviderFields.onChange.
  intros Hev [Hs Ha].
  destruct ev; simplify_option_eq; repeat case_match; simplify_eq; cbn;
    rewrite ?length_app, ?length_alter, ?length_insert; cbn;
    try (split; lia);
    match goal with
    | H : _ && _ = true |- _ =>
        apply andb_true_iff in H as [Hlen Hindex];
        apply Nat.ltb_lt in Hlen; apply Nat.ltb_lt in Hindex;
        rewrite length_delete by (by apply lookup_lt_is_Some_2); split; lia
    end.
Qed.

Lemma edits_nonEmptyRows form0 form :
  ProviderFields.edits form0 form → nonEmptyRows form0 → nonEmptyRows form.
Proof.
  induction 1 as [| form countries ev form' _ IH Hev]; [done |].
  intros H0. eapply handle_nonEmptyRows; [exact Hev | by apply IH].
Qed.

Lemma fetchProvider_run net (w : World EditProviderPage.State) providerId :
  ∃ r,
    let w' := (run net (EditProviderPage.fetchProvider providerId) w).1 in
    sent (browser w') = sent (browser w) ++ [r] ∧
    endpoint r = (GET, "/Provider/" +:+ providerId) ∧
    match net (sent (browser w)) r with
    | Resolved d =>
        EditProviderPage.form (page w') = EditProviderPage.formData (providerOf d)
    | Rejected _ => EditProviderPage.form (page w') = EditProviderPage.form (page w)
    end.
Proof.
  unfold EditProviderPage.fetchProvider, Api.get. run_equations. cbn zeta.
  set (w1 := perform (SetState (EditProviderPage.setIsLoadingProvider true)) w).
  set (config := Request.mk GET _ _ _ _).
  exists (authorize w1 config).
  assert (Hend : endpoint (authorize w1 config) = (GET, "/Provider/" +:+ providerId)).
  { unfold authorize. by repeat case_match. }
  change (sent (browser w1)) with (sent (browser w)).
  destruct (net (sent (browser w)) (authorize w1 config)) as [d | error];
    run_equations; [by cbn |].
  unfold afterRejection. by destruct (Api.isUnauthorized error).
Qed.

(** C9, as stated, fails for the edit form: once the provider is loaded, the
    rows are those of the provider, and a provider without services or
    custom attributes leaves the form without rows. *)
Lemma edit_form_rows_can_be_empty :
  let provider := Provider.mk "7" "900123" "Acme" "acme@example.com" "2024-01-01"
                    false None [] [] in
  let net : Network := λ _ _, Resolved (ProviderData provider) in
  let w := mkWorld emptyBrowser EditProviderPage.initialState in
  let form := EditProviderPage.form
                (page (run net (EditProviderPage.fetchProvider "7") w).1) in
  ProviderForm.services form = [] ∧
  ProviderForm.attributes form = [] ∧
  ¬ nonEmptyRows form.
Proof.
  cbn zeta. split; [vm_compute; reflexivity |].
  split; [vm_compute; reflexivity |].
  intros [H _]. vm_compute in H. lia.
Qed.

(** C9, amended.  Both forms start with exactly one blank service row and one
    blank attribute row; adding appends one blank row; the remove button of a
    row is there only when the array has more than one row, and removes that
    row; so no event on the fields empties an array, and the creation form
    has at least one row of each kind at all times.  In the edit form, the
    loaded provider replaces the rows by one row per service and per custom
    attribute of the provider, which may be none. *)
Theorem form_rows :
  (ProviderForm.services NewProviderPage.defaultValues = [ProviderFields.blankService] ∧
   ProviderForm.attributes NewProviderPage.defaultValues = [ProviderFields.blankAttribute] ∧
   ProviderForm.services EditProviderPage.defaultValues = [ProviderFields.blankService] ∧
   ProviderForm.attributes EditProviderPage.defaultValues = [ProviderFields.blankAttribute]) ∧
  (∀ countries form,
     ProviderFields.handle countries ProviderFields.ClickAddService form =
       Some (ProviderFields.setServices
               (ProviderForm.services form ++ [ProviderFields.blankService]) form) ∧
     ProviderFields.handle countries ProviderFields.ClickAddAttribute form =
       Some (ProviderFields.setAttributes
               (ProviderForm.attributes form ++ [ProviderFields.blankAttribute]) form)) ∧
  (∀ countries index form form',
     ProviderFields.handle countries (ProviderFields.ClickRemoveService index) form
       = Some form' →
     (1 < length (ProviderForm.services form))%nat ∧
     ProviderForm.services form' = delete index (ProviderForm.services form) ∧
     ProviderForm.attributes form' = ProviderForm.attributes form) ∧
  (∀ countries index form form',
     ProviderFields.handle countries (ProviderFields.ClickRemoveAttribute index) form
       = Some form' →
     (1 < length (ProviderForm.attributes form))%nat ∧
     ProviderForm.attributes form' = delete index (ProviderForm.attributes form) ∧
     ProviderForm.services form' = ProviderForm.services form) ∧
  (∀ countries ev form form',
     ProviderFields.handle countries ev form = Some form' →
     nonEmptyRows form → nonEmptyRows form') ∧
  (∀ form, ProviderFields.edits NewProviderPage.defaultValues form → nonEmptyRows form) ∧
  (∀ ev st,
     nonEmptyRows (EditProviderPage.form st) →
     nonEmptyRows (EditProviderPage.form (EditProviderPage.handle ev st))) ∧
  (∀ net (w : World EditProviderPage.State) providerId, ∃ r,
     let w' := (run net (EditProviderPage.fetchProvider providerId) w).1 in
     sent (browser w') = sent (browser w) ++ [r] ∧
     endpoint r = (GET, "/Provider/" +:+ providerId) ∧
     match net (sent (browser w)) r with
     | Resolved d =>
         EditProviderPage.form (page w') = EditProviderPage.formData (providerOf d)
     | Rejected _ => EditProviderPage.form (page w') = EditProviderPage.form (page w)
     end) ∧
  (∀ provider,
     length (ProviderForm.services (EditProviderPage.formData provider))
       = length (Provider.services provider) ∧
     length (ProviderForm.attributes (EditProviderPage.formData provider))
       = length (Provider.customAttributes provider)).
Proof.
  split; [done |].
  split; [done |].
  split.
  { intros countries index form form'. unfold ProviderFields.handle.
    case_match eqn:Hguard; intros [= <-]; cbn.
    apply andb_true_iff in Hguard as [Hlen _]. apply Nat.ltb_lt in Hlen. done. }
  split.
  { intros countries index form form'. unfold ProviderFields.handle.
    case_match eqn:Hguard; intros [= <-]; cbn.
    apply andb_true_iff in Hguard as [Hlen _]. apply Nat.ltb_lt in Hlen. done. }
  split; [exact handle_nonEmptyRows |].
  split.
  { intros form Hform. eapply edits_nonEmptyRows; [exact Hform |].
    split; cbn; lia. }
  split.
  { intros ev st Hst. unfold EditProviderPage.handle. cbn.
    destruct (ProviderFields.handle (EditProviderPage.countries st) ev
                (EditProviderPage.form st)) as [form' |] eqn:Hev; cbn; [| done].
    by eapply handle_nonEmptyRows. }
  split; [intros net w providerId; apply fetchProvider_run |].
  intros provider. cbn. by rewrite !length_map.
Qed.

Lemma form_rows_witness :
  let form := ProviderFields.setServices
                [ProviderFields.blankService; ProviderFields.blankService]
                NewProviderPage.defaultValues in
  ProviderFields.handle [] (ProviderFields.ClickRemoveService 0) form
    = Some NewProviderPage.defaultValues ∧
  nonEmptyRows NewProviderPage.defaultValues.
Proof.
  cbn zeta. split; [reflexivity |].
  apply (proj1 (proj2 (proj2 (proj2 (proj2 form_rows)))) []
           (ProviderFields.ClickRemoveService 0)
           (ProviderFields.setServices
              [ProviderFields.blankService; ProviderFields.blankService]
              NewProviderPage.defaultValues)).
  - reflexivity.
  - split; cbn; lia.
Defined.

Lemma country_picker_no_duplicates_witness :
  let countries := [Country.mk "CO" "Colombia" "Americas"; Country.mk "PE" "Peru" "Americas"] in
  let item := ProviderFields.mkDropdownItem (Country.mk "PE" "Peru" "Americas") ["CO"; "PE"] in
  Some item ∈ ProviderFields.dropdown countries "" ["CO"] ∧
  NoDup (ProviderFields.itemOnClick item).
Proof.
  cbn zeta.
  assert (Hin : Some (ProviderFields.mkDropdownItem (Country.mk "PE" "Peru" "Americas")
                        ["CO"; "PE"])
                ∈ ProviderFields.dropdown
                    [Country.mk "CO" "Colombia" "Americas";
                     Country.mk "PE" "Peru" "Americas"] "" ["CO"]).
  { vm_compute. apply list_elem_of_further, list_elem_of_here. }
  split; [exact Hin |].
  apply (proj2 (proj1 (country_picker_no_duplicates
                         [Country.mk "CO" "Colombia" "Americas";
                          Country.mk "PE" "Peru" "Americas"])
                  "" ["CO"] _ Hin)).
  apply NoDup_singleton.
Defined.

Lemma storage_only_token_witness :
  let net : Network := λ _ _, Resolved (LoginData (Some "abc")) in
  let w := initialWorld (AuthLogin "ana" "secret") in
  localStorage (browser (run net (Api.login "ana" "secret") w).1) !! "theme" = None.
Proof.
  cbn zeta.
  destruct (storage_only_token (AuthLogin "ana" "secret")
              (λ _ _, Resolved (LoginData (Some "abc")))
              (initialWorld (AuthLogin "ana" "secret")))
    as (calls & _ & _ & _ & _ & Hframe).
  etrans; [apply (Hframe "theme"); discriminate | apply lookup_empty].
Defined.

(** * Further properties of the sources *)

(** ** Logging in and out *)

Lemma run_login net username password (w : World ()) :
  let r := authorize w (loginRequest username password) in
  let w1 := recordSent r (readItem "auth_token" w) in
  run net (Api.login username password) w =
  match net (sent (browser w)) r with
  | Resolved d =>
      match tokenOf d with
      | Some token =>
          if JS.truthy token
          then (perform (SetItem "auth_token" token) w1, Normal d)
          else (perform (ConsoleError "Login failed:" tokenNotReceived) w1,
                Abrupt tokenNotReceived)
      | None =>
          (perform (ConsoleError "Login failed:" tokenNotReceived) w1,
           Abrupt tokenNotReceived)
      end
  | Rejected e =>
      (perform (ConsoleError "Login failed:" e) (afterRejection e w1), Abrupt e)
  end.
Proof.
  cbn zeta. unfold Api.login, Api.post, loginRequest.
  rewrite run_tryCatch, run_mbind, run_request. cbn zeta.
  destruct (net _ _) as [d | e]; [| done].
  destruct (tokenOf d) as [t |]; [destruct (JS.truthy t) |]; done.
Qed.

Lemma authorize_with_token {S} (w : World S) token config :
  localStorage (browser w) !! "auth_token" = Some token → token ≠ "" →
  authorize w config = Api.setAuthorization ("Bearer " +:+ token) config.
Proof.
  intros Hw Hne. unfold authorize. rewrite Hw.
  apply truthy_nonempty in Hne. by rewrite Hne.
Qed.

Lemma authorize_without_token {S} (w : World S) config :
  localStorage (browser w) !! "auth_token" = None → authorize w config = config.
Proof. intros Hw. unfold authorize. by rewrite Hw. Qed.

(** X1.  When the backend fulfils the login with a non-empty token, [login]
    returns the response data and stores the token; from then on
    [isAuthenticated] answers true and every request through the client
    carries [Authorization: Bearer <token>], whatever was stored before. *)
Theorem login_stores_token (net net' : Network) (username password : string)
    (w : World ()) (d : Payload) (token : string) :
  net (sent (browser w)) (authorize w (loginRequest username password)) = Resolved d →
  tokenOf d = Some token → token ≠ "" →
  let result := run net (Api.login username password) w in
  result.2 = Normal d ∧
  localStorage (browser result.1) = <["auth_token" := token]> (localStorage (browser w)) ∧
  (run net' Api.isAuthenticated result.1).2 = Normal true ∧
  ∀ config,
    authorize result.1 config = Api.setAuthorization ("Bearer " +:+ token) config.
Proof.
  intros Hnet Htoken Hne. cbn zeta. rewrite run_login. cbn zeta.
  rewrite Hnet, Htoken. pose proof (proj2 (truthy_nonempty token) Hne) as Ht.
  rewrite Ht. cbn.
  split; [done |]. split; [done |]. split.
  - rewrite lookup_insert_eq. cbn. by rewrite Ht.
  - intros config. apply authorize_with_token; [| done]. cbn. apply lookup_insert_eq.
Qed.

Lemma login_stores_token_witness :
  let net : Network := λ _ _, Resolved (LoginData (Some "abc")) in
  let w := mkWorld emptyBrowser () in
  localStorage (browser (run net (Api.login "ana" "secret") w).1)
  = <["auth_token" := "abc"]> ∅.
Proof.
  cbn zeta.
  apply (login_stores_token (λ _ _, Resolved (LoginData (Some "abc")))
           (λ _ _, Resolved NoData) "ana" "secret" (mkWorld emptyBrowser ())
           (LoginData (Some "abc")) "abc"); [reflexivity | reflexivity | discriminate].
Defined.

(** X2.  When the backend fulfils the login without a token (none, or the
    empty string), [login] throws [Token not received from server], logs it
    as a failed login, and leaves the storage and the location as they were:
    a token stored earlier stays. *)
Theorem login_without_token (net : Network) (username password : string)
    (w : World ()) (d : Payload) :
  net (sent (browser w)) (authorize w (loginRequest username password)) = Resolved d →
  JS.truthyOpt (tokenOf d) = false →
  let result := run net (Api.login username password) w in
  result.2 = Abrupt tokenNotReceived ∧
  console (browser result.1) = console (browser w) ++ [("Login failed:", tokenNotReceived)] ∧
  localStorage (browser result.1) = localStorage (browser w) ∧
  href (browser result.1) = href (browser w).
Proof.
  intros Hnet Htoken. cbn zeta. rewrite run_login. cbn zeta. rewrite Hnet.
  destruct (tokenOf d) as [t |]; cbn in Htoken; [rewrite Htoken |]; done.
Qed.

Lemma login_without_token_witness :
  let net : Network := λ _ _, Resolved (LoginData (Some "")) in
  let w := mkWorld (mkBrowser {[ "auth_token" := "old" ]} [] [] None [] []) () in
  (run net (Api.login "ana" "secret") w).2 = Abrupt tokenNotReceived ∧
  localStorage (browser (run net (Api.login "ana" "secret") w).1)
  = {[ "auth_token" := "old" ]}.
Proof.
  cbn zeta.
  destruct (login_without_token (λ _ _, Resolved (LoginData (Some ""))) "ana" "secret"
              (mkWorld (mkBrowser {[ "auth_token" := "old" ]} [] [] None [] []) ())
              (LoginData (Some "")) eq_refl eq_refl) as (H1 & _ & H2 & _).
  split; [exact H1 | exact H2].
Defined.

Lemma run_logout {S} net (w : World S) :
  run net Api.logout w =
  (perform (SetHref "/login") (perform (RemoveItem "auth_token") w), Normal ()).
Proof. done. Qed.

Lemma run_isAuthenticated {S} net (w : World S) :
  run net Api.isAuthenticated w =
  (readItem "auth_token" w,
   Normal (JS.truthyOpt (localStorage (browser w) !! "auth_token"))).
Proof. done. Qed.

(** X3.  [logout] removes the token and sends the browser to [/login]; a
    request rejected with status 401 leaves the storage and the location
    exactly as [logout] does.  After either, [isAuthenticated] answers false
    and the next request leaves without an [Authorization] header being
    added; the other keys of the storage are untouched. *)
Theorem logout_and_unauthorized {S} (net net' : Network) (w : World S) :
  let out := (run net Api.logout w).1 in
  localStorage (browser out) = delete "auth_token" (localStorage (browser w)) ∧
  href (browser out) = Some "/login" ∧
  (run net' Api.isAuthenticated out).2 = Normal false ∧
  (∀ config, authorize out config = config) ∧
  (∀ config e,
     net (sent (browser w)) (authorize w config) = Rejected e →
     Api.isUnauthorized e = true →
     let rejected := (run net (Api.request config) w).1 in
     localStorage (browser rejected) = localStorage (browser out) ∧
     href (browser rejected) = href (browser out) ∧
     (run net' Api.isAuthenticated rejected).2 = Normal false ∧
     ∀ config', authorize rejected config' = config').
Proof.
  cbn zeta. rewrite run_logout.
  split; [done |]. split; [done |]. split.
  { cbn. by rewrite lookup_delete_eq. }
  split.
  { intros config. apply authorize_without_token. cbn. apply lookup_delete_eq. }
  intros config e Hnet H401. rewrite run_request. cbn zeta. rewrite Hnet.
  unfold afterRejection. rewrite H401. cbn.
  split; [done |]. split; [done |]. split.
  { by rewrite lookup_delete_eq. }
  intros config'. apply authorize_without_token. cbn. apply lookup_delete_eq.
Qed.

Lemma logout_and_unauthorized_witness :
  let e := AxiosError (Some (ErrorResponse.mk 401 None)) in
  let net : Network := λ _ _, Rejected e in
  let w := mkWorld (mkBrowser {[ "auth_token" := "abc" ]} [] [] None [] []) () in
  localStorage
    (browser (run net (Api.request (Request.mk GET "/Country" [] Api.defaultHeaders NoBody)) w).1)
  = localStorage (browser (run net Api.logout w).1).
Proof.
  cbn zeta.
  apply (proj2 (proj2 (proj2 (proj2
           (logout_and_unauthorized
              (λ _ _, Rejected (AxiosError (Some (ErrorResponse.mk 401 None))))
              (λ _ _, Resolved NoData)
              (mkWorld (mkBrowser {[ "auth_token" := "abc" ]} [] [] None [] []) ())))))
           (Request.mk GET "/Country" [] Api.defaultHeaders NoBody)
           (AxiosError (Some (ErrorResponse.mk 401 None))));
    reflexivity.
Defined.

(** ** The guard of the protected pages *)

(** X4.  The guard renders its children exactly when the storage holds a
    non-empty token when its effect runs.  Otherwise it asks the router for
    [/login] and keeps showing the checking message.  It sends no request and
    changes nothing in the storage. *)
Theorem guard_renders_children (net : Network) (b : Browser) :
  let w := mkWorld b AuthGuard.initialState in
  let w' := (run net AuthGuard.effect_ w).1 in
  (AuthGuard.render (page w') = AuthGuard.Children ↔
   ∃ token, localStorage b !! "auth_token" = Some token ∧ token ≠ "") ∧
  (AuthGuard.render (page w') = AuthGuard.Checking ↔
   pushed (browser w') = pushed b ++ ["/login"]) ∧
  (AuthGuard.render (page w') = AuthGuard.Children → pushed (browser w') = pushed b) ∧
  sent (browser w') = sent b ∧
  localStorage (browser w') = localStorage b.
Proof.
  cbn zeta. unfold AuthGuard.effect_.
  rewrite run_mbind, run_isAuthenticated. cbn [fst snd browser].
  destruct (localStorage b !! "auth_token") as [t |] eqn:Ht; cbn.
  - destruct (JS.truthy t) eqn:Htruthy; cbn.
    + repeat split; try done.
      * intros _. exists t. split; [done |]. by apply truthy_nonempty.
      * intros H. apply (f_equal length) in H. rewrite length_app in H. cbn in H. lia.
    + repeat split; try done.
      intros (t' & [= <-] & Hne). apply truthy_nonempty in Hne. congruence.
  - repeat split; try done. by intros (t' & [=] & _).
Qed.

(** ** The headers of the requests *)






(** ** Loading flags *)

(** X6.  Every fetch and every submit lowers the loading flag that it raised
    before it completes, whatever the backend answers: a failed request never
    leaves a spinner or a disabled submit button behind. *)
Theorem loading_flag_lowered (op : Operation) (net : Network)
    (w : World (stateOf (program op))) :
  loadingFlag op (page (run net (code (program op)) w).1) ≠ Some true.
Proof.
  destruct op; cbn [program code stateOf resultOf loadingFlag] in *;
    try done;
    unfold_operation; unfold Api.get, Api.post, Api.put;
    run_equations; cbn zeta; failure_cases net; cbn; done.
Qed.

(** ** The numbers of the summary dashboard *)






(** ** The view of the summary page after its load *)

Lemma fetchData_run net (b : Browser) :
  let w := mkWorld b SummaryPage.initialState in
  let r1 := authorize w (Request.mk GET "/Summary" [] Api.defaultHeaders NoBody) in
  let r2 := authorize w (Request.mk GET "/Country" [] Api.defaultHeaders NoBody) in
  page (run net SummaryPage.fetchData w).1 =
  match net (sent b) r1 with
  | Resolved d1 =>
      match net (sent b ++ [r1]) r2 with
      | Resolved d2 => SummaryPage.mkState (summaryOf d1) false None (countriesOf d2)
      | Rejected _ => SummaryPage.mkState (summaryOf d1) false (Some summaryFailure) []
      end
  | Rejected _ => SummaryPage.mkState None false (Some summaryFailure) []
  end.
Proof.
  cbn zeta. unfold SummaryPage.fetchData, Api.get. run_equations. cbn zeta.
  change (sent (browser (perform _ (mkWorld b SummaryPage.initialState)))) with (sent b).
  set (r1 := authorize _ (Request.mk GET "/Summary" _ _ _)).
  replace (authorize (mkWorld b SummaryPage.initialState)
             (Request.mk GET "/Summary" [] Api.defaultHeaders NoBody)) with r1 by done.
  destruct (net (sent b) r1) as [d1 | e1]; run_equations; cbn zeta.
  - set (r2 := authorize _ (Request.mk GET "/Country" _ _ _)).
    replace (authorize (mkWorld b SummaryPage.initialState)
               (Request.mk GET "/Country" [] Api.defaultHeaders NoBody)) with r2 by done.
    cbn [sent browser perform recordSent readItem onBrowser].
    destruct (net (sent b ++ [r1]) r2) as [d2 | e2]; run_equations; [done |].
    unfold afterRejection. by destruct (Api.isUnauthorized e2).
  - unfold afterRejection. by destruct (Api.isUnauthorized e1).
Qed.

(** X8.  Once the load of the summary page has completed, the page never
    shows the spinner.  It shows the dashboard, built from the two responses,
    when both requests were fulfilled.  When either was rejected it shows the
    failure message instead: a rejected [/Country] hides a summary that was
    received. *)
Theorem summary_view_after_load (net : Network) (b : Browser) :
  let w := mkWorld b SummaryPage.initialState in
  let r1 := authorize w (Request.mk GET "/Summary" [] Api.defaultHeaders NoBody) in
  let r2 := authorize w (Request.mk GET "/Country" [] Api.defaultHeaders NoBody) in
  let view := SummaryPage.render (page (run net SummaryPage.fetchData w).1) in
  view ≠ SummaryPage.Spinner ∧
  match net (sent b) r1, net (sent b ++ [r1]) r2 with
  | Resolved d1, Resolved d2 =>
      view = SummaryPage.Page
               (SummaryPage.dashboard
                  (SummaryPage.mkState (summaryOf d1) false None (countriesOf d2)))
  | _, _ => view = SummaryPage.ErrorAlert summaryFailure
  end.
Proof.
  cbn zeta. rewrite fetchData_run. cbn zeta.
  destruct (net (sent b) _) as [d1 | e1]; [| done].
  destruct (net (sent b ++ _) _) as [d2 | e2]; done.
Qed.

(** ** The order of the bars *)
Section SortStable.
Context {A : Type} (compareFn : A → A → Z) (P : A → Prop) `{!∀ x, Decision (P x)}.

(** Two elements of the class [P] are never put strictly one after the
    other by [compareFn]. *)
Hypothesis same_class : ∀ x y, P x → P y → compareFn x y ≤ 0.

Lemma sortInsert_filter x l :
  filter P (JS.sortInsert compareFn x l) = filter P (x :: l).
Proof.
  induction l as [| y l IH]; [done |].
  cbn [JS.sortInsert]. destruct (compareFn x y <=? 0) eqn:Hc; [done |].
  apply Z.leb_gt in Hc.
  rewrite filter_cons, IH, !filter_cons.
  destruct (decide (P y)) as [Hy |], (decide (P x)) as [Hx |]; try done.
  specialize (same_class x y Hx Hy). lia.
Qed.

Lemma sort_filter l : filter P (JS.sort compareFn l) = filter P l.
Proof.
  induction l as [| x l IH]; [done |].
  cbn [JS.sort foldr]. fold (JS.sort compareFn l).
  by rewrite sortInsert_filter, !filter_cons, IH.
Qed.

End SortStable.

(** X9.  The sort of the chart data is stable: the entries that have the
    same count come in the order in which [Object.entries] lists their keys
    in the record. *)
Theorem chart_ties_keep_record_order (countries : list Country.t)
    (data : CountRecord) (n : Z) :
  map ChartEntry.code
    (filter (λ e, ChartEntry.count e = n)
       (SummaryPage.transformDataForChart countries (Some data)))
  = map fst (filter (λ entry, entry.2 = n) (Object_entries data)).
Proof.
  unfold SummaryPage.transformDataForChart, Object_entries.
  rewrite sort_filter by (intros x y Hx Hy; lia).
  induction data as [| [code count] data IH]; [done |].
  cbn [map]. rewrite !filter_cons. cbn.
  destruct (decide (count = n)); cbn; by rewrite IH.
Qed.

(** ** Letter case and padding of a country code *)
















(** ** Submitting a form *)

Lemma edit_onSubmit_run net (w : World EditProviderPage.State) providerId data :
  let body :=
    UpdateBody providerId (ProviderForm.name data) (ProviderForm.email data)
      (map (λ service,
              ServiceForm.mk (ServiceForm.name service) (ServiceForm.hourlyRate service)
                (ServiceForm.countryCodes service) None)
           (ProviderForm.services data))
      (map (λ attr,
              AttributeForm.mk (AttributeForm.key attr) (AttributeForm.value attr) None)
           (ProviderForm.attributes data)) in
  let r := authorize w (Request.mk PUT ("/Provider/" +:+ providerId) []
                          Api.defaultHeaders body) in
  let w' := (run net (EditProviderPage.onSubmit providerId data) w).1 in
  sent (browser w') = sent (browser w) ++ [r] ∧
  EditProviderPage.form (page w') = EditProviderPage.form (page w) ∧
  match net (sent (browser w)) r with
  | Resolved _ =>
      pushed (browser w') = pushed (browser w) ++ ["/providers"] ∧
      EditProviderPage.error (page w') = ""
  | Rejected _ => pushed (browser w') = pushed (browser w)
  end.
Proof.
  cbn zeta. unfold EditProviderPage.onSubmit, Api.put. run_equations. cbn zeta.
  set (body := UpdateBody _ _ _ _ _).
  set (w1 := perform _ (perform _ w)).
  change (authorize w1 ?c) with (authorize w c).
  change (sent (browser w1)) with (sent (browser w)).
  destruct (net (sent (browser w)) _) as [d | e]; run_equations; [done |].
  unfold afterRejection. by destruct (Api.isUnauthorized e).
Qed.

Lemma new_onSubmit_run net (w : World NewProviderPage.State) data :
  let r := authorize w (Request.mk POST "/Provider/with-details" []
                          Api.defaultHeaders (CreateBody data)) in
  let w' := (run net (NewProviderPage.onSubmit data) w).1 in
  sent (browser w') = sent (browser w) ++ [r] ∧
  match net (sent (browser w)) r with
  | Resolved _ =>
      pushed (browser w') = pushed (browser w) ++ ["/providers"] ∧
      NewProviderPage.error (page w') = ""
  | Rejected _ => pushed (browser w') = pushed (browser w)
  end.
Proof.
  cbn zeta. unfold NewProviderPage.onSubmit, Api.post. run_equations. cbn zeta.
  set (w1 := perform _ (perform _ w)).
  change (authorize w1 ?c) with (authorize w c).
  change (sent (browser w1)) with (sent (browser w)).
  destruct (net (sent (browser w)) _) as [d | e]; run_equations; [done |].
  unfold afterRejection. by destruct (Api.isUnauthorized e).
Qed.

(** X11.  A submit sends one request.  The page leaves for [/providers]
    exactly when the request is fulfilled, and then shows no error; when the
    request is rejected the router is not called, and the values of the edit
    form are the ones that were submitted from. *)
Theorem submit_navigates_on_success (net : Network) :
  (∀ (w : World EditProviderPage.State) providerId data, ∃ r,
     let w' := (run net (EditProviderPage.onSubmit providerId data) w).1 in
     sent (browser w') = sent (browser w) ++ [r] ∧
     endpoint r = (PUT, "/Provider/" +:+ providerId) ∧
     EditProviderPage.form (page w') = EditProviderPage.form (page w) ∧
     match net (sent (browser w)) r with
     | Resolved _ =>
         pushed (browser w') = pushed (browser w) ++ ["/providers"] ∧
         EditProviderPage.error (page w') = ""
     | Rejected _ => pushed (browser w') = pushed (browser w)
     end) ∧
  (∀ (w : World NewProviderPage.State) data, ∃ r,
     let w' := (run net (NewProviderPage.onSubmit data) w).1 in
     sent (browser w') = sent (browser w) ++ [r] ∧
     endpoint r = (POST, "/Provider/with-details") ∧
     Request.data r = CreateBody data ∧
     match net (sent (browser w)) r with
     | Resolved _ =>
         pushed (browser w') = pushed (browser w) ++ ["/providers"] ∧
         NewProviderPage.error (page w') = ""
     | Rejected _ => pushed (browser w') = pushed (browser w)
     end).
Proof.
  split.
  - intros w providerId data.
    destruct (edit_onSubmit_run net w providerId data) as (Hsent & Hform & Hnet).
    eexists. split; [exact Hsent |]. split; [apply endpoint_authorize |].
    split; [exact Hform | exact Hnet].
  - intros w data.
    destruct (new_onSubmit_run net w data) as (Hsent & Hnet).
    eexists. split; [exact Hsent |]. split; [apply endpoint_authorize |].
    split; [| exact Hnet]. unfold authorize. by repeat case_match.
Qed.

Lemma formData_unchangedBody providerId provider :
  let data := EditProviderPage.formData provider in
  UpdateBody providerId (ProviderForm.name data) (ProviderForm.email data)
    (map (λ service,
            ServiceForm.mk (ServiceForm.name service) (ServiceForm.hourlyRate service)
              (ServiceForm.countryCodes service) None)
         (ProviderForm.services data))
    (map (λ attr,
            AttributeForm.mk (AttributeForm.key attr) (AttributeForm.value attr) None)
         (ProviderForm.attributes data))
  = unchangedBody providerId provider.
Proof. cbn. unfold unchangedBody. by rewrite !map_map. Qed.

(** X12.  Loading a provider into the edit form and submitting it unchanged
    sends the name, the email, the services (name, hourly rate and country
    codes, in their order) and the custom attributes of the provider as they
    were received, under the identifier of the route.  The identifiers of the
    rows and the NIT are not sent. *)
Theorem unchanged_provider_is_sent_back (net : Network)
    (w : World EditProviderPage.State) (providerId : string) (provider : Provider.t) :
  ∃ r,
    sent (browser (run net (EditProviderPage.onSubmit providerId
                              (EditProviderPage.formData provider)) w).1)
    = sent (browser w) ++ [r] ∧
    endpoint r = (PUT, "/Provider/" +:+ providerId) ∧
    Request.data r = unchangedBody providerId provider.
Proof.
  destruct (edit_onSubmit_run net w providerId (EditProviderPage.formData provider))
    as (Hsent & _).
  eexists. split; [exact Hsent |]. split; [apply endpoint_authorize |].
  rewrite <- formData_unchangedBody. unfold authorize. by repeat case_match.
Qed.

(** X13.  While the request of a submit is in flight the submit button is
    disabled, and it is enabled again as soon as the outcome arrives,
    whatever it is; while the request of the provider list is in flight the
    page shows the spinner, so that the pagination buttons are not there,
    also after the countries have arrived. *)
Theorem controls_while_in_flight :
  (∀ w providerId data,
     let l := spawn (EditProviderPage.onSubmit providerId data) (mkLoop w []) in
     outstanding l = 1%nat ∧
     EditProviderPage.submitDisabled (page (world l)) = true ∧
     ∀ o, outstanding (deliver 0 o l) = 0%nat ∧
          EditProviderPage.submitDisabled (page (world (deliver 0 o l))) = false) ∧
  (∀ w data,
     let l := spawn (NewProviderPage.onSubmit data) (mkLoop w []) in
     outstanding l = 1%nat ∧
     NewProviderPage.submitDisabled (page (world l)) = true ∧
     ∀ o, outstanding (deliver 0 o l) = 0%nat ∧
          NewProviderPage.submitDisabled (page (world (deliver 0 o l))) = false) ∧
  (∀ w st,
     let l := spawnAll (ProvidersPage.effect_ st) (mkLoop w []) in
     ProvidersPage.pagination (page (world l)) = None ∧
     ∀ o, ProvidersPage.pagination (page (world (deliver 0 o l))) = None).
Proof.
  split; [| split].
  - intros w providerId data. cbn zeta.
    unfold spawn, deliver, EditProviderPage.onSubmit, Api.put, outstanding.
    cbn [world pending]. start_equations.
    cbn [world pending app lookup list_lookup resume delete list_delete length].
    split; [done |]. split; [done |].
    intros [d | e]; unfold spawn; cbn [world pending]; start_equations; [done |].
    unfold Api.responseErrorInterceptor.
    destruct (Api.isUnauthorized e); start_equations; done.
  - intros w data. cbn zeta.
    unfold spawn, deliver, NewProviderPage.onSubmit, Api.post, outstanding.
    cbn [world pending]. start_equations.
    cbn [world pending app lookup list_lookup resume delete list_delete length].
    split; [done |]. split; [done |].
    intros [d | e]; unfold spawn; cbn [world pending]; start_equations; [done |].
    unfold Api.responseErrorInterceptor.
    destruct (Api.isUnauthorized e); start_equations; done.
  - intros w st. cbn zeta.
    unfold spawnAll, ProvidersPage.effect_, ProvidersPage.fetchCountries,
      ProvidersPage.fetchProviders, Api.get, spawn, deliver.
    cbn [foldl world pending]. start_equations.
    cbn [world pending app]. start_equations.
    cbn [world pending app lookup list_lookup resume delete list_delete].
    split; [done |].
    intros [d | e]; unfold spawn; cbn [world pending]; start_equations; [done |].
    unfold Api.responseErrorInterceptor.
    destruct (Api.isUnauthorized e); start_equations; done.
Qed.

(** ** The search box and the dropdown of the country picker *)







Lemma dropdown_elem_of countries searchTerm value item :
  Some item ∈ ProviderFields.dropdown countries searchTerm value ↔
  ProviderFields.itemCountry item ∈ ProviderFields.filteredCountries countries searchTerm ∧
  (Country.code (ProviderFields.itemCountry item) ∉ value) ∧
  ProviderFields.itemOnClick item
  = value ++ [Country.code (ProviderFields.itemCountry item)].
Proof.
  unfold ProviderFields.dropdown. rewrite list_elem_of_In, in_map_iff. split.
  - intros (country & Hitem & Hin%list_elem_of_In).
    destruct (JS.arrayIncludes value (Country.code country)) eqn:Hinc; [done |].
    injection Hitem as <-. cbn. split; [done |]. split; [| done].
    rewrite <- arrayIncludes_elem_of. congruence.
  - intros (Hin & Hnot & Hclick). exists (ProviderFields.itemCountry item).
    split; [| by apply list_elem_of_In].
    rewrite <- arrayIncludes_elem_of in Hnot.
    apply not_true_is_false in Hnot. rewrite Hnot.
    destruct item as [country click]. cbn in *. by rewrite Hclick.
Qed.

(** X15.  The dropdown offers every country that the search lists and whose
    code is not selected, and nothing else; the click on an entry selects the
    code of its country after the codes already selected. *)
Theorem dropdown_offers_unselected (countries : list Country.t)
    (searchTerm : string) (value : list string) :
  (∀ item,
     Some item ∈ ProviderFields.dropdown countries searchTerm value ↔
     ProviderFields.itemCountry item
       ∈ ProviderFields.filteredCountries countries searchTerm ∧
     (Country.code (ProviderFields.itemCountry item) ∉ value) ∧
     ProviderFields.itemOnClick item
     = value ++ [Country.code (ProviderFields.itemCountry item)]) ∧
  (∀ country,
     country ∈ ProviderFields.filteredCountries countries searchTerm →
     Country.code country ∉ value →
     Some (ProviderFields.mkDropdownItem country (value ++ [Country.code country]))
       ∈ ProviderFields.dropdown countries searchTerm value) ∧
  length (ProviderFields.dropdown countries searchTerm value)
  = length (ProviderFields.filteredCountries countries searchTerm).
Proof.
  split; [intros item; apply dropdown_elem_of |].
  split.
  - intros country Hin Hnot. by apply dropdown_elem_of.
  - unfold ProviderFields.dropdown. apply length_map.
Qed.

(** ** Selecting and removing, adding and removing *)

Lemma filter_all {A} (P : A → Prop) `{!∀ x, Decision (P x)} (l : list A) :
  Forall P l → filter P l = l.
Proof.
  induction 1 as [| x l Hx _ IH]; [done |].
  by rewrite filter_cons_True, IH.
Qed.

Lemma chipOnClick_selected (value : list string) code :
  code ∉ value → ProviderFields.chipOnClick (value ++ [code]) code = value.
Proof.
  intros Hnot. unfold ProviderFields.chipOnClick.
  rewrite filter_app, filter_cons_False, filter_nil, app_nil_r by (by intros []).
  apply filter_all, Forall_forall. intros x Hx ->. done.
Qed.

Lemma onChange_onChange index v (form : ProviderForm.t) service :
  ProviderForm.services form !! index = Some service →
  ProviderFields.onChange index (ServiceForm.countryCodes service)
    (ProviderFields.onChange index v form) = form.
Proof.
  intros Hservice. destruct form as [fid nit name email services attributes].
  unfold ProviderFields.onChange, ProviderFields.setServices. cbn in *. f_equal.
  rewrite list_alter_alter_eq.
  rewrite <- (list_alter_id (λ x, x) services index) at 2 by done.
  apply list_alter_ext; [| done].
  intros x Hx. assert (x = service) as -> by congruence. by destruct service.
Qed.

(** X16.  Selecting a country in the dropdown of a service and then
    clicking the cross of its chip gives back the form as it was: the
    selected codes of that service, and everything else. *)
Theorem select_then_remove_restores (countries countries' : list Country.t)
    (index : nat) (searchTerm : string) (position : nat)
    (form form1 : ProviderForm.t) :
  ProviderFields.handle countries
    (ProviderFields.ClickDropdownItem index searchTerm position) form = Some form1 →
  ∃ service item,
    ProviderForm.services form !! index = Some service ∧
    ProviderFields.dropdown countries searchTerm (ServiceForm.countryCodes service)
      !! position = Some (Some item) ∧
    ProviderFields.handle countries'
      (ProviderFields.ClickChip index (Country.code (ProviderFields.itemCountry item)))
      form1 = Some form.
Proof.
  intros Hev. unfold ProviderFields.handle in Hev.
  destruct (ProviderForm.services form !! index) as [service |] eqn:Hservice;
    [| done].
  cbn in Hev.
  destruct (ProviderFields.dropdown countries searchTerm
              (ServiceForm.countryCodes service) !! position)
    as [[item |] |] eqn:Hitem; cbn in Hev; try done.
  injection Hev as <-.
  exists service, item. split; [done |]. split; [done |].
  pose proof (list_elem_of_lookup_2 _ _ _ Hitem) as Hin.
  apply dropdown_item in Hin as [Hnot Hclick].
  unfold ProviderFields.handle.
  assert (Hlookup : ProviderForm.services
                      (ProviderFields.onChange index (ProviderFields.itemOnClick item) form)
                    !! index
                    = Some (ProviderFields.setCountryCodes
                              (ProviderFields.itemOnClick item) service)).
  { unfold ProviderFields.onChange. cbn. by rewrite list_lookup_alter_eq, Hservice. }
  rewrite Hlookup.
  cbn -[JS.arrayIncludes ProviderFields.chipOnClick ProviderFields.onChange].
  rewrite Hclick.
  assert (Hinc : JS.arrayIncludes
                   (ServiceForm.countryCodes service
                    ++ [Country.code (ProviderFields.itemCountry item)])
                   (Country.code (ProviderFields.itemCountry item)) = true).
  { apply arrayIncludes_elem_of. set_solver. }
  rewrite Hinc, chipOnClick_selected by done.
  f_equal. by apply onChange_onChange.
Qed.

Lemma select_then_remove_restores_witness :
  let countries := [Country.mk "CO" "Colombia" "Americas"] in
  let form := NewProviderPage.defaultValues in
  let form1 := ProviderFields.onChange 0 ["CO"] form in
  ProviderFields.handle countries (ProviderFields.ClickDropdownItem 0 "" 0) form
    = Some form1 ∧
  ProviderFields.handle [] (ProviderFields.ClickChip 0 "CO") form1 = Some form.
Proof.
  cbn zeta. split; [reflexivity |].
  destruct (select_then_remove_restores [Country.mk "CO" "Colombia" "Americas"] []
              0 "" 0 NewProviderPage.defaultValues
              (ProviderFields.onChange 0 ["CO"] NewProviderPage.defaultValues) eq_refl)
    as (service & item & Hservice & Hitem & Hchip).
  injection Hservice as <-. injection Hitem as <-. exact Hchip.
Defined.

Lemma remove_added {A} (fields : list A) (row : A) :
  fields ≠ [] →
  ProviderFields.removeRendered (fields ++ [row]) &&
    (length fields <? length (fields ++ [row]))%nat = true ∧
  ProviderFields.remove (length fields) (fields ++ [row]) = fields.
Proof.
  intros Hne. unfold ProviderFields.removeRendered, ProviderFields.remove.
  rewrite length_app. cbn [length]. split.
  - destruct fields; [done |]. cbn [length].
    apply andb_true_iff. split; apply Nat.ltb_lt; lia.
  - rewrite (delete_middle fields [] row). apply app_nil_r.
Qed.

(** X17.  Adding a row and then removing the row that was added gives back
    the form as it was, for the services and for the attributes.  When the
    form had no row of that kind, the row that was added is the only one and
    has no remove button. *)
Theorem add_then_remove_restores (countries : list Country.t) (form : ProviderForm.t) :
  let added := ProviderFields.setServices
                 (ProviderForm.services form ++ [ProviderFields.blankService]) form in
  let added' := ProviderFields.setAttributes
                  (ProviderForm.attributes form ++ [ProviderFields.blankAttribute]) form in
  ProviderFields.handle countries ProviderFields.ClickAddService form = Some added ∧
  ProviderFields.handle countries
    (ProviderFields.ClickRemoveService (length (ProviderForm.services form))) added
  = match ProviderForm.services form with [] => None | _ => Some form end ∧
  ProviderFields.handle countries ProviderFields.ClickAddAttribute form = Some added' ∧
  ProviderFields.handle countries
    (ProviderFields.ClickRemoveAttribute (length (ProviderForm.attributes form))) added'
  = match ProviderForm.attributes form with [] => None | _ => Some form end.
Proof.
  destruct form as [fid nit name email services attributes]. cbn zeta.
  unfold ProviderFields.handle, ProviderFields.append,
    ProviderFields.setServices, ProviderFields.setAttributes.
  cbn [ProviderForm.services ProviderForm.attributes ProviderForm.id ProviderForm.nit
       ProviderForm.name ProviderForm.email].
  split; [done |]. split.
  - destruct services as [| s services]; [done |].
    destruct (remove_added (s :: services) ProviderFields.blankService) as [-> ->];
      done.
  - split; [done |].
    destruct attributes as [| a attributes]; [done |].
    destruct (remove_added (a :: attributes) ProviderFields.blankAttribute) as [-> ->];
      done.
Qed.

(** ** The labels of the chips *)





(** ** Validation before a submit *)

Lemma serviceSchema_spec (check : ServiceForm.t → bool) service :
  check = NewProviderPage.ServiceSchema ∨ check = EditProviderPage.ServiceSchema →
  check service = true →
  ServiceForm.name service ≠ "" ∧
  (0 < ServiceForm.hourlyRate service)%Q ∧
  ServiceForm.countryCodes service ≠ [].
Proof.
  intros [-> | ->];
    unfold NewProviderPage.ServiceSchema, EditProviderPage.ServiceSchema;
    rewrite !andb_true_iff, negb_true_iff, truthy_nonempty;
    intros [[Hname Hrate] Hcodes]; (split; [done |]); split;
    try (apply Qnot_le_lt; intros Hle%Qle_bool_iff; congruence);
    intros Hnil; rewrite Hnil in Hcodes; discriminate.
Qed.

Lemma attributeSchema_spec (check : AttributeForm.t → bool) attr :
  check = NewProviderPage.AttributeSchema ∨ check = EditProviderPage.AttributeSchema →
  check attr = true →
  AttributeForm.key attr ≠ "" ∧ AttributeForm.value attr ≠ "".
Proof.
  intros [-> | ->];
    unfold NewProviderPage.AttributeSchema, EditProviderPage.AttributeSchema;
    rewrite andb_true_iff, !truthy_nonempty; done.
Qed.

(** X19.  [onSubmit] is called only with values that pass the schema of the
    form: a non-empty name (and NIT, in the creation form), an email that the
    email pattern accepts, and rows in which every service has a name, a
    positive hourly rate and at least one country, and every attribute a key
    and a value.  A form that still holds a blank row, such as the initial
    one, is never submitted.  The schema asks for no row at all: without
    rows only the provider fields decide. *)
Theorem submit_requires_valid_rows (isEmail : string → bool) :
  (∀ data submitted,
     NewProviderPage.handleSubmit isEmail data = Some submitted →
     submitted = NewProviderPage.onSubmit data ∧
     ProviderForm.nit data ≠ "" ∧ ProviderForm.name data ≠ "" ∧
     isEmail (ProviderForm.email data) = true ∧
     Forall (λ service,
               ServiceForm.name service ≠ "" ∧
               (0 < ServiceForm.hourlyRate service)%Q ∧
               ServiceForm.countryCodes service ≠ [])
       (ProviderForm.services data) ∧
     Forall (λ attr, AttributeForm.key attr ≠ "" ∧ AttributeForm.value attr ≠ "")
       (ProviderForm.attributes data)) ∧
  (∀ providerId data submitted,
     EditProviderPage.handleSubmit isEmail providerId data = Some submitted →
     submitted = EditProviderPage.onSubmit providerId data ∧
     ProviderForm.name data ≠ "" ∧
     isEmail (ProviderForm.email data) = true ∧
     Forall (λ service,
               ServiceForm.name service ≠ "" ∧
               (0 < ServiceForm.hourlyRate service)%Q ∧
               ServiceForm.countryCodes service ≠ [])
       (ProviderForm.services data) ∧
     Forall (λ attr, AttributeForm.key attr ≠ "" ∧ AttributeForm.value attr ≠ "")
       (ProviderForm.attributes data)) ∧
  (∀ providerId data,
     ProviderFields.blankService ∈ ProviderForm.services data ∨
     ProviderFields.blankAttribute ∈ ProviderForm.attributes data →
     NewProviderPage.handleSubmit isEmail data = None ∧
     EditProviderPage.handleSubmit isEmail providerId data = None) ∧
  (∀ fid nit name email,
     NewProviderPage.ProviderSchema isEmail (ProviderForm.mk fid nit name email [] [])
     = JS.truthy nit && JS.truthy name && isEmail email).
Proof.
  assert (Hnew : ∀ data,
            NewProviderPage.ProviderSchema isEmail data = true →
            ProviderForm.nit data ≠ "" ∧ ProviderForm.name data ≠ "" ∧
            isEmail (ProviderForm.email data) = true ∧
            Forall (λ service,
                      ServiceForm.name service ≠ "" ∧
                      (0 < ServiceForm.hourlyRate service)%Q ∧
                      ServiceForm.countryCodes service ≠ [])
              (ProviderForm.services data) ∧
            Forall (λ attr, AttributeForm.key attr ≠ "" ∧ AttributeForm.value attr ≠ "")
              (ProviderForm.attributes data)).
  { intros data. unfold NewProviderPage.ProviderSchema.
    rewrite !andb_true_iff, !truthy_nonempty, !forallb_forall.
    intros [[[[Hnit Hname] Hemail] Hservices] Hattrs].
    repeat split; try done.
    - apply Forall_forall. intros s Hs%list_elem_of_In.
      eapply serviceSchema_spec; [by left | by apply Hservices].
    - apply Forall_forall. intros a Ha%list_elem_of_In.
      eapply attributeSchema_spec; [by left | by apply Hattrs]. }
  assert (Hedit : ∀ data,
            EditProviderPage.ProviderSchema isEmail data = true →
            ProviderForm.name data ≠ "" ∧
            isEmail (ProviderForm.email data) = true ∧
            Forall (λ service,
                      ServiceForm.name service ≠ "" ∧
                      (0 < ServiceForm.hourlyRate service)%Q ∧
                      ServiceForm.countryCodes service ≠ [])
              (ProviderForm.services data) ∧
            Forall (λ attr, AttributeForm.key attr ≠ "" ∧ AttributeForm.value attr ≠ "")
              (ProviderForm.attributes data)).
  { intros data. unfold EditProviderPage.ProviderSchema.
    rewrite !andb_true_iff, !truthy_nonempty, !forallb_forall.
    intros [[[[Hid Hname] Hemail] Hservices] Hattrs].
    repeat split; try done.
    - apply Forall_forall. intros s Hs%list_elem_of_In.
      eapply serviceSchema_spec; [by right | by apply Hservices].
    - apply Forall_forall. intros a Ha%list_elem_of_In.
      eapply attributeSchema_spec; [by right | by apply Hattrs]. }
  split; [| split; [| split]].
  - intros data submitted. unfold NewProviderPage.handleSubmit.
    destruct (NewProviderPage.ProviderSchema isEmail data) eqn:Hvalid; [| done].
    intros [= <-]. split; [done |]. by apply Hnew.
  - intros providerId data submitted. unfold EditProviderPage.handleSubmit.
    destruct (EditProviderPage.ProviderSchema isEmail data) eqn:Hvalid; [| done].
    intros [= <-]. split; [done |]. by apply Hedit.
  - intros providerId data Hblank.
    unfold NewProviderPage.handleSubmit, EditProviderPage.handleSubmit.
    split.
    + destruct (NewProviderPage.ProviderSchema isEmail data) eqn:Hvalid; [| done].
      destruct (Hnew data Hvalid) as (_ & _ & _ & Hs & Ha).
      rewrite Forall_forall in Hs. rewrite Forall_forall in Ha.
      destruct Hblank as [Hb | Hb];
        [by destruct (Hs _ Hb) as [? _] | by destruct (Ha _ Hb) as [? _]].
    + destruct (EditProviderPage.ProviderSchema isEmail data) eqn:Hvalid; [| done].
      destruct (Hedit data Hvalid) as (_ & _ & Hs & Ha).
      rewrite Forall_forall in Hs. rewrite Forall_forall in Ha.
      destruct Hblank as [Hb | Hb];
        [by destruct (Hs _ Hb) as [? _] | by destruct (Ha _ Hb) as [? _]].
  - intros fid nit name email. unfold NewProviderPage.ProviderSchema. cbn.
    by rewrite !andb_true_r.
Qed.

Lemma submit_requires_valid_rows_witness :
  NewProviderPage.handleSubmit (λ _, true) NewProviderPage.defaultValues = None.
Proof.
  apply (proj1 (proj2 (proj2 (submit_requires_valid_rows (λ _, true)))) ""
           NewProviderPage.defaultValues).
  left. apply list_elem_of_here.
Defined.

(** ** The order in which the responses arrive *)

Ltac arrival w :=
  unfold spawn; cbn [world pending]; start_equations;
  unfold Api.responseErrorInterceptor;
  repeat match goal with
         | H : Api.isUnauthorized ?e = _
           |- context [if Api.isUnauthorized ?e then _ else _] =>
             rewrite H; start_equations
         | |- context [if Api.isUnauthorized ?e then _ else _] =>
             destruct (Api.isUnauthorized e) eqn:?; start_equations
         end.

(** X20.  The two requests of a page load do not race: whichever of the two
    responses arrives first, and whatever the outcomes are, the component
    ends in the same state, with the same storage and location and with
    nothing left in flight.  This holds for the provider list ([/Country] and
    [/Provider]) and for the edit form ([/Provider/{id}] and [/Country]). *)
Theorem responses_commute :
  (∀ w st first second,
     let l := spawnAll (ProvidersPage.effect_ st) (mkLoop w []) in
     let a := deliver 0 second (deliver 0 first l) in
     let b := deliver 0 first (deliver 1 second l) in
     page (world a) = page (world b) ∧
     localStorage (browser (world a)) = localStorage (browser (world b)) ∧
     href (browser (world a)) = href (browser (world b)) ∧
     pending a = [] ∧ pending b = []) ∧
  (∀ w providerId first second,
     let l := spawnAll (EditProviderPage.mount providerId) (mkLoop w []) in
     let a := deliver 0 second (deliver 0 first l) in
     let b := deliver 0 first (deliver 1 second l) in
     page (world a) = page (world b) ∧
     localStorage (browser (world a)) = localStorage (browser (world b)) ∧
     href (browser (world a)) = href (browser (world b)) ∧
     pending a = [] ∧ pending b = []).
Proof.
  split.
  - intros w st first second. cbn zeta.
    unfold spawnAll, ProvidersPage.effect_, ProvidersPage.fetchCountries,
      ProvidersPage.fetchProviders, Api.get, spawn.
    cbn [foldl world pending]. start_equations.
    cbn [world pending app]. start_equations.
    cbn [world pending app].
    unfold deliver.
    cbn [world pending lookup list_lookup resume delete list_delete].
    destruct first as [d1 | e1], second as [d2 | e2]; arrival w;
      cbn [world pending lookup list_lookup resume delete list_delete];
      arrival w; done.
  - intros w providerId first second. cbn zeta.
    unfold spawnAll, EditProviderPage.mount, EditProviderPage.fetchCountries,
      EditProviderPage.fetchProvider, Api.get, spawn.
    cbn [foldl world pending]. start_equations.
    cbn [world pending app]. start_equations.
    cbn [world pending app].
    unfold deliver.
    cbn [world pending lookup list_lookup resume delete list_delete].
    destruct first as [d1 | e1], second as [d2 | e2]; arrival w;
      cbn [world pending lookup list_lookup resume delete list_delete];
      arrival w; done.
Qed.

(** ** The list of countries *)

(** X21.  Each of the three pages that fetch the countries sends one
    [GET /Country]; a fulfilled response replaces the list of countries, a
    rejected one keeps the list that was there, so that the names and the
    picker go on working with it.  The fetch touches nothing else that the
    page shows: not the providers and the current page of the list, not the
    values of the edit form. *)
Theorem countries_after_fetch (net : Network) :
  (∀ w : World ProvidersPage.State, ∃ r,
     let w' := (run net ProvidersPage.fetchCountries w).1 in
     sent (browser w') = sent (browser w) ++ [r] ∧
     endpoint r = (GET, "/Country") ∧
     ProvidersPage.countries (page w') =
       match net (sent (browser w)) r with
       | Resolved d => countriesOf d
       | Rejected _ => ProvidersPage.countries (page w)
       end ∧
     ProvidersPage.providerData (page w') = ProvidersPage.providerData (page w) ∧
     ProvidersPage.currentPage (page w') = ProvidersPage.currentPage (page w) ∧
     ProvidersPage.isLoading (page w') = ProvidersPage.isLoading (page w)) ∧
  (∀ w : World EditProviderPage.State, ∃ r,
     let w' := (run net EditProviderPage.fetchCountries w).1 in
     sent (browser w') = sent (browser w) ++ [r] ∧
     endpoint r = (GET, "/Country") ∧
     EditProviderPage.countries (page w') =
       match net (sent (browser w)) r with
       | Resolved d => countriesOf d
       | Rejected _ => EditProviderPage.countries (page w)
       end ∧
     EditProviderPage.form (page w') = EditProviderPage.form (page w) ∧
     EditProviderPage.error (page w') = EditProviderPage.error (page w)) ∧
  (∀ w : World NewProviderPage.State, ∃ r,
     let w' := (run net NewProviderPage.fetchCountries w).1 in
     sent (browser w') = sent (browser w) ++ [r] ∧
     endpoint r = (GET, "/Country") ∧
     NewProviderPage.countries (page w') =
       match net (sent (browser w)) r with
       | Resolved d => countriesOf d
       | Rejected _ => NewProviderPage.countries (page w)
       end).
Proof.
  split; [| split].
  - intros w. unfold ProvidersPage.fetchCountries, Api.get. run_equations. cbn zeta.
    set (w1 := perform _ w). set (config := Request.mk GET _ _ _ _).
    exists (authorize w1 config).
    change (sent (browser w1)) with (sent (browser w)).
    pose proof (endpoint_authorize w1 config) as Hend.
    destruct (net (sent (browser w)) (authorize w1 config)) as [d | e];
      run_equations; [by cbn |].
    unfold afterRejection. by destruct (Api.isUnauthorized e).
  - intros w. unfold EditProviderPage.fetchCountries, Api.get. run_equations. cbn zeta.
    set (w1 := perform _ w). set (config := Request.mk GET _ _ _ _).
    exists (authorize w1 config).
    change (sent (browser w1)) with (sent (browser w)).
    pose proof (endpoint_authorize w1 config) as Hend.
    destruct (net (sent (browser w)) (authorize w1 config)) as [d | e];
      run_equations; [by cbn |].
    unfold afterRejection. by destruct (Api.isUnauthorized e).
  - intros w. unfold NewProviderPage.fetchCountries, Api.get. run_equations. cbn zeta.
    set (w1 := perform _ w). set (config := Request.mk GET _ _ _ _).
    exists (authorize w1 config).
    change (sent (browser w1)) with (sent (browser w)).
    pose proof (endpoint_authorize w1 config) as Hend.
    destruct (net (sent (browser w)) (authorize w1 config)) as [d | e];
      run_equations; [by cbn |].
    unfold afterRejection. by destruct (Api.isUnauthorized e).
Qed.

(** ** The chart without countries *)

Lemma sortInsert_pairs (x y : ChartEntry.t) (l1 l2 : list ChartEntry.t) :
  entryPair x = entryPair y →
  map entryPair l1 = map entryPair l2 →
  map entryPair
    (JS.sortInsert (λ a b, ChartEntry.count b - ChartEntry.count a) x l1)
  = map entryPair
      (JS.sortInsert (λ a b, ChartEntry.count b - ChartEntry.count a) y l2).
Proof.
  intros Hxy. revert l2.
  induction l1 as [| a l1 IH]; intros [| b l2] Heq; try discriminate.
  - cbn. by rewrite Hxy.
  - injection Heq as Hcode Hcount Hrest. cbn [JS.sortInsert].
    assert (ChartEntry.count x = ChartEntry.count y) as Hc
      by (unfold entryPair in Hxy; congruence).
    rewrite Hcount, Hc.
    assert (entryPair a = entryPair b) as Hab
      by (unfold entryPair; congruence).
    destruct (_ <=? 0); cbn [map]; rewrite Hab.
    + by rewrite Hxy, Hrest.
    + f_equal. by apply IH.
Qed.

(** X22.  While no country is known (the list is empty), every bar of a
    chart is labelled with the key of the record as it is.  The codes and the
    counts of the bars, and their order, do not depend on the countries: the
    names only label the bars.  An empty record gives an empty chart. *)
Theorem chart_without_countries (countries : list Country.t) (data : CountRecord) :
  Forall (λ e, ChartEntry.country e = ChartEntry.code e)
    (SummaryPage.transformDataForChart [] (Some data)) ∧
  map entryPair (SummaryPage.transformDataForChart [] (Some data))
  = map entryPair (SummaryPage.transformDataForChart countries (Some data)) ∧
  SummaryPage.transformDataForChart countries (Some []) = [].
Proof.
  split; [| split; [| done]].
  - unfold SummaryPage.transformDataForChart, Object_entries.
    rewrite sort_perm. induction data as [| [code count] data IH]; by constructor.
  - unfold SummaryPage.transformDataForChart, Object_entries.
    induction data as [| [code count] data IH]; [done |].
    cbn [map JS.sort foldr]. by apply sortInsert_pairs.
Qed.
